(** * Verification of [auxiliary_functions.py]

    A shallow embedding of the two functions of the module,
    [process_axes] and [TT_State_Compression], together with the part of
    NumPy they call ([ndarray.shape], [np.transpose], [np.reshape]).

    An n-dimensional array is modelled by its logical value: its shape and
    its elements listed in row-major (C) order.  Python exceptions are
    values of the type [exn], carried by the error monad [result]. *)

From stdpp Require Import gmap strings list fin_maps.

Open Scope string_scope.
Open Scope nat_scope.
Open Scope list_scope.

(** ** Python exceptions and the error monad *)

Inductive exn : Type :=
  | KeyError                  (* dict lookup of an absent key *)
  | IndexError                (* tuple/list index out of range *)
  | ValueError_axes_mismatch  (* np.transpose: axes don't match array *)
  | AxisError                 (* np.transpose: axis out of bounds *)
  | ValueError_repeated_axis  (* np.transpose: repeated axis in transpose *)
  | ValueError_reshape        (* np.reshape: cannot reshape array of size n *)
  | ValueError_axis_names     (* tn.Node: axis_names do not fit the tensor *)
  | DecompositionFailure      (* whatever tntorch raises, passed on as it is *)
  | TypeError.                (* an object of the wrong kind *)

Inductive result (T : Type) : Type :=
  | Ok (x : T)
  | Raise (e : exn).
Arguments Ok {T} x.
Arguments Raise {T} e.

#[global] Instance result_ret : MRet result := λ T x, Ok x.
#[global] Instance result_bind : MBind result := λ T U f m,
  match m with
  | Ok x => f x
  | Raise e => Raise e
  end.

#[global] Instance exn_eq_dec : EqDecision exn.
Proof. solve_decision. Defined.

Definition returns {T} (m : result T) : Prop := ∃ x, m = Ok x.
Definition raises {T} (m : result T) : Prop := ∃ e, m = Raise e.

(** ** Shapes, strides and flat indices *)

(** [np.prod(shape)]: the number of elements of an array of that shape. *)
Definition numel (sh : list nat) : nat := foldr Nat.mul 1 sh.

(** Row-major strides (in elements) of a contiguous array. *)
Fixpoint strides (sh : list nat) : list nat :=
  match sh with
  | [] => []
  | _ :: sh' => numel sh' :: strides sh'
  end.

(** The flat offset of a multi-index under given strides. *)
Definition offset (st idx : list nat) : nat :=
  sum_list (zip_with Nat.mul idx st).

(** The multi-index of the [k]-th element in row-major order. *)
Fixpoint unravel (sh : list nat) (k : nat) : list nat :=
  match sh with
  | [] => []
  | _ :: sh' => k / numel sh' :: unravel sh' (k mod numel sh')
  end.

(** [idx] is a valid multi-index of an array of shape [sh]. *)
Fixpoint in_bounds (sh idx : list nat) : bool :=
  match sh, idx with
  | [], [] => true
  | n :: sh', i :: idx' => bool_decide (i < n) && in_bounds sh' idx'
  | _, _ => false
  end.

(** The position of [a] in [l], and the index that [axes] permutes into
    [idx]: the inverse of an axis permutation, used to state what
    [np.transpose] does to the elements. *)
Fixpoint index_of (a : nat) (l : list nat) : nat :=
  match l with
  | [] => 0
  | b :: l' => if decide (a = b) then 0 else S (index_of a l')
  end.

Definition unpermute (axes idx : list nat) : list nat :=
  (λ a, idx !!! index_of a axes) <$> seq 0 (length axes).

(** Python's [t[i]] on a tuple or list, for a non-negative [i]. *)
Definition tuple_get (t : list nat) (i : nat) : result nat :=
  match t !! i with
  | Some x => Ok x
  | None => Raise IndexError
  end.

(** Python's [d[k]] on a dict. *)
Definition dict_get (d : gmap string nat) (k : string) : result nat :=
  match d !! k with
  | Some v => Ok v
  | None => Raise KeyError
  end.

(** ** NumPy arrays *)

Section ndarray.
Context {A : Type}.

Record ndarray : Type := NDArray {
  shape : list nat;   (* tensor.shape *)
  data : list A       (* the elements, in row-major order *)
}.

Definition ndim (t : ndarray) : nat := length (shape t).

(** Every array holds as many elements as its shape says. *)
Definition wf (t : ndarray) : Prop := length (data t) = numel (shape t).

(** [t[i0, ..., in-1]] with a full, non-negative multi-index;
    [None] stands for IndexError. *)
Definition getitem (t : ndarray) (idx : list nat) : option A :=
  if in_bounds (shape t) idx
  then data t !! offset (strides (shape t)) idx
  else None.

(** The argument check of [np.transpose], axis by axis as NumPy does it:
    an axis out of bounds, or one already seen, stops the walk. *)
Fixpoint check_axes (n : nat) (seen axes : list nat) : result () :=
  match axes with
  | [] => Ok ()
  | a :: rest =>
      if bool_decide (n ≤ a) then Raise AxisError
      else if bool_decide (a ∈ seen) then Raise ValueError_repeated_axis
      else check_axes n (a :: seen) rest
  end.

(** [np.transpose(t, axes)]: axis [j] of the result is axis [axes[j]] of
    [t]; the result has the permuted shape and strides, and its elements
    are listed here in row-major order of the result. *)
Definition transpose (t : ndarray) (axes : list nat) : result ndarray :=
  if bool_decide (length axes ≠ ndim t) then Raise ValueError_axes_mismatch
  else
    _ ← check_axes (ndim t) [] axes;
    let sh := (λ a, shape t !!! a) <$> axes in
    let st := (λ a, strides (shape t) !!! a) <$> axes in
    Ok (NDArray sh
          (omap (λ k, data t !! offset st (unravel sh k))
                (seq 0 (numel sh)))).

(** [np.reshape(t, new_shape)] in C order, for a shape of non-negative
    sizes: the elements keep their row-major order. *)
Definition reshape (t : ndarray) (new_shape : list nat) : result ndarray :=
  if bool_decide (numel new_shape = numel (shape t))
  then Ok (NDArray new_shape (data t))
  else Raise ValueError_reshape.

(** ** [process_axes] *)

(** [{name: i for i, name in enumerate(bond_axes)}]: a later occurrence
    of a name overwrites an earlier one. *)
Definition make_axis_map (bond_axes : list string) : gmap string nat :=
  foldl (λ m '(i, name), <[name := i]> m) ∅ (imap pair bond_axes).

(** [name in axis_map]. *)
Definition dict_has (d : gmap string nat) (k : string) : bool :=
  bool_decide (is_Some (d !! k)).

(** [if c: l.append(x)], where evaluating [x] may raise. *)
Definition append_if (c : bool) (l : list nat) (x : result nat)
  : result (list nat) :=
  if c then v ← x; Ok (l ++ [v]) else Ok l.

(** Lines 52-67: the target axis order. *)
Definition build_target_order (axis_map : gmap string nat) (has_out : bool)
  : result (list nat) :=
  let out_offset := if has_out then 1 else 0 in
  let target_order := [] in
  let target_order := if has_out then target_order ++ [0] else target_order in
  target_order ← append_if (dict_has axis_map "up1") target_order
                   (i ← dict_get axis_map "up1"; Ok (i + out_offset));
  target_order ← append_if (dict_has axis_map "up2") target_order
                   (i ← dict_get axis_map "up2"; Ok (i + out_offset));
  target_order ← append_if (dict_has axis_map "down1") target_order
                   (i ← dict_get axis_map "down1"; Ok (i + out_offset));
  target_order ← append_if (dict_has axis_map "down2") target_order
                   (i ← dict_get axis_map "down2"; Ok (i + out_offset));
  Ok target_order.

(** Lines 80-86 and 88-94: one group of the new shape, starting at
    axis [idx] of the permuted shape. *)
Definition group_dim (has1 has2 : bool) (idx : nat) (sh new_shape : list nat)
  : result (list nat) :=
  if has1 || has2 then
    if has1 && has2 then
      a ← tuple_get sh idx;
      b ← tuple_get sh (idx + 1);
      Ok (new_shape ++ [a * b])
    else
      a ← tuple_get sh idx;
      Ok (new_shape ++ [a])
  else Ok new_shape.

(** Lines 75-94: the new shape. *)
Definition build_new_shape (has_out has_up1 has_up2 has_down1 has_down2 : bool)
    (sh : list nat) : result (list nat) :=
  let out_offset := if has_out then 1 else 0 in
  let new_shape := [] in
  new_shape ← (if has_out then a ← tuple_get sh 0; Ok (new_shape ++ [a])
               else Ok new_shape);
  let up_idx := out_offset in
  new_shape ← group_dim has_up1 has_up2 up_idx sh new_shape;
  let down_idx :=
    out_offset + (if has_up1 then 1 else 0) + (if has_up2 then 1 else 0) in
  new_shape ← group_dim has_down1 has_down2 down_idx sh new_shape;
  Ok new_shape.

(** Lines 98-105: the names of the axes of the result. *)
Definition build_final_axes (has_out has_up1 has_up2 has_down1 has_down2 : bool)
  : list string :=
  let final_axes := [] in
  let final_axes := if has_out then final_axes ++ ["out"] else final_axes in
  let final_axes :=
    if has_up1 || has_up2 then final_axes ++ ["up"] else final_axes in
  let final_axes :=
    if has_down1 || has_down2 then final_axes ++ ["down"] else final_axes in
  final_axes.

(** Lines 69-73: the transposition, skipped when the target order is the
    current one; [shape] is read again from the transposed tensor. *)
Definition reorder (tensor : ndarray) (shape0 : list nat)
    (target_order : list nat) : result (ndarray * list nat) :=
  let current_order := seq 0 (length (shape tensor)) in
  if bool_decide (target_order ≠ current_order) then
    tensor ← transpose tensor target_order;
    let shape := shape tensor in
    Ok (tensor, shape)
  else Ok (tensor, shape0).

Definition process_axes (tensor : ndarray) (bond_axes : list string)
    (has_out : bool) : result (ndarray * list string) :=
  let shape := shape tensor in
  let axis_map := make_axis_map bond_axes in
  let has_up1 := dict_has axis_map "up1" in
  let has_up2 := dict_has axis_map "up2" in
  let has_down1 := dict_has axis_map "down1" in
  let has_down2 := dict_has axis_map "down2" in
  target_order ← build_target_order axis_map has_out;
  '(tensor, shape) ← reorder tensor shape target_order;
  new_shape ←
    build_new_shape has_out has_up1 has_up2 has_down1 has_down2 shape;
  tensor ← reshape tensor new_shape;
  let final_axes :=
    build_final_axes has_out has_up1 has_up2 has_down1 has_down2 in
  Ok (tensor, final_axes).

(** The variant of the algorithm that the specification allows next to
    the one above: step 2 always applies the permutation of step 1, with
    no test of the target order against the current one.  All other steps
    are those of [process_axes]. *)
Definition process_axes_always_transpose (tensor : ndarray)
    (bond_axes : list string) (has_out : bool)
  : result (ndarray * list string) :=
  let axis_map := make_axis_map bond_axes in
  let has_up1 := dict_has axis_map "up1" in
  let has_up2 := dict_has axis_map "up2" in
  let has_down1 := dict_has axis_map "down1" in
  let has_down2 := dict_has axis_map "down2" in
  target_order ← build_target_order axis_map has_out;
  tensor ← transpose tensor target_order;
  let shape := shape tensor in
  new_shape ←
    build_new_shape has_out has_up1 has_up2 has_down1 has_down2 shape;
  tensor ← reshape tensor new_shape;
  let final_axes :=
    build_final_axes has_out has_up1 has_up2 has_down1 has_down2 in
  Ok (tensor, final_axes).

End ndarray.

Arguments ndarray : clear implicits.

(** ** Valid inputs *)

Definition vocabulary : list string := ["up1"; "up2"; "down1"; "down2"].

Definition out_offset (has_out : bool) : nat := if has_out then 1 else 0.

(** The preconditions of [process_axes]: distinct labels from the
    vocabulary, one per axis after the optional leading out axis. *)
Definition valid_input {A} (t : ndarray A) (bond_axes : list string)
    (has_out : bool) : Prop :=
  NoDup bond_axes ∧ bond_axes ⊆ vocabulary ∧
  length bond_axes + out_offset has_out = ndim t.

(** ** [TT_State_Compression] *)

(** The element types an array can carry. *)
Inductive dtype : Type :=
  | bool_ | int32 | int64 | float32 | float64 | complex64 | complex128.

#[global] Instance dtype_eq_dec : EqDecision dtype.
Proof. solve_decision. Defined.

Section tt.
(** Array elements and the tolerance are floating-point data; the model
    leaves their type open. *)
Context {scalar float : Type}.

(** The conversion of one element from a dtype to another. *)
Variable convert : dtype → dtype → scalar → scalar.

(** An array together with its dtype: a NumPy array or a torch tensor. *)
Record tensor : Type := Tensor {
  dtype_of : dtype;
  array_of : ndarray scalar
}.

(** A [tensornetwork.Node], as far as this module reads and builds it. *)
Record Node : Type := MkNode {
  node_tensor : tensor;
  name : string;
  axis_names : list string
}.

Definition is_complex128 (x : tensor) : Prop := dtype_of x = complex128.

(** [torch.tensor(x, dtype=dt)]: a copy of [x] converted to [dt]. *)
Definition torch_tensor (x : tensor) (dt : dtype) : tensor :=
  Tensor dt (NDArray (shape (array_of x))
                     (convert (dtype_of x) dt <$> data (array_of x))).

(** The decomposition routine of tntorch, [tntorch.Tensor(cores)] followed
    by [round_tt(eps=eps)] and a read of [.cores]: an external
    collaborator, from a chain of cores and a tolerance to a chain of
    cores or an exception. *)
Variable round_tt : list tensor → float → result (list tensor).

(** [tn.Node(x, name=name, axis_names=axis_names)]: the axis names must be
    distinct and one per axis of [x]. *)
Definition tn_Node (x : tensor) (name : string) (axis_names : list string)
  : result Node :=
  if bool_decide (¬ NoDup axis_names) then Raise ValueError_axis_names
  else if bool_decide (length axis_names ≠ ndim (array_of x))
  then Raise ValueError_axis_names
  else Ok (MkNode x name axis_names).

(** Python's [l[i]] on a list. *)
Definition list_get {T} (l : list T) (i : nat) : result T :=
  match l !! i with
  | Some x => Ok x
  | None => Raise IndexError
  end.

(** Line 18: every tensor of the chain as a complex128 torch tensor. *)
Definition tensor_list (TN_State : list Node) : list tensor :=
  (λ node, torch_tensor (node_tensor node) complex128) <$> TN_State.

(** Lines 25-33: the loop over [enumerate(TT_Compressed.cores)], from
    index [i] on, appending to [TT_cores]. *)
Fixpoint attach_metadata (TN_State : list Node) (i : nat)
    (cores : list tensor) (TT_cores : list Node) : result (list Node) :=
  match cores with
  | [] => Ok TT_cores
  | core :: rest =>
      node_i ← list_get TN_State i;
      node ← tn_Node core (name node_i) (axis_names node_i);
      attach_metadata TN_State (S i) rest (TT_cores ++ [node])
  end.

Definition TT_State_Compression (TN_State : list Node) (eps : float)
  : result (list Node) :=
  let tensor_list := tensor_list TN_State in
  cores ← round_tt tensor_list eps;
  attach_metadata TN_State 0 cores [].

End tt.

Arguments tensor : clear implicits.
Arguments Node : clear implicits.

(** ** [process_axes] on a store of Python objects

    The same function once more, now with the objects it handles held in
    a store: the arguments are references, every list the function builds
    is allocated and appended to in place, and the results are references
    to new objects.  An array object is held by value: NumPy may let the
    result share its element buffer with the argument, which the function
    never writes. *)

Section store.
Context {A : Type}.

Inductive pyobj : Type :=
  | PyArray (a : ndarray A)
  | PyStrList (l : list string)
  | PyNatList (l : list nat)
  | PyDict (d : gmap string nat).

Definition loc : Type := positive.

(** A computation on the store: a result or an exception, and the store
    it leaves. *)
Definition M (T : Type) : Type := gmap loc pyobj → result T * gmap loc pyobj.

#[global] Instance M_ret : MRet M := λ T x σ, (Ok x, σ).
#[global] Instance M_bind : MBind M := λ T U f m σ,
  match m σ with
  | (Ok x, σ') => f x σ'
  | (Raise e, σ') => (Raise e, σ')
  end.

Definition lift {T} (r : result T) : M T := λ σ, (r, σ).

(** A new object, at a location the store does not use. *)
Definition alloc (o : pyobj) : M loc := λ σ,
  let l := fresh (dom σ) in (Ok l, <[l := o]> σ).

Definition get_array (r : loc) : M (ndarray A) := λ σ,
  match σ !! r with
  | Some (PyArray a) => (Ok a, σ)
  | _ => (Raise TypeError, σ)
  end.

Definition get_str_list (r : loc) : M (list string) := λ σ,
  match σ !! r with
  | Some (PyStrList l) => (Ok l, σ)
  | _ => (Raise TypeError, σ)
  end.

Definition get_nat_list (r : loc) : M (list nat) := λ σ,
  match σ !! r with
  | Some (PyNatList l) => (Ok l, σ)
  | _ => (Raise TypeError, σ)
  end.

Definition get_dict (r : loc) : M (gmap string nat) := λ σ,
  match σ !! r with
  | Some (PyDict d) => (Ok d, σ)
  | _ => (Raise TypeError, σ)
  end.

(** [l.append(x)]: the list object at [r] is updated in place. *)
Definition nat_list_append (r : loc) (x : nat) : M () := λ σ,
  match σ !! r with
  | Some (PyNatList l) => (Ok (), <[r := PyNatList (l ++ [x])]> σ)
  | _ => (Raise TypeError, σ)
  end.

Definition str_list_append (r : loc) (x : string) : M () := λ σ,
  match σ !! r with
  | Some (PyStrList l) => (Ok (), <[r := PyStrList (l ++ [x])]> σ)
  | _ => (Raise TypeError, σ)
  end.

(** [if c: body]. *)
Definition when (c : bool) (body : M ()) : M () :=
  if c then body else mret ().

(** [k in d] and [d[k]] on the dict object at [d]. *)
Definition dict_contains (d : loc) (k : string) : M bool :=
  m ← get_dict d; mret (dict_has m k).

Definition dict_getitem (d : loc) (k : string) : M nat :=
  m ← get_dict d; lift (dict_get m k).

(** [np.transpose(tensor, axes)] and [np.reshape(tensor, new_shape)],
    with the axes and the shape read from list objects: a new array
    object. *)
Definition np_transpose (tensor axes : loc) : M loc :=
  a ← get_array tensor;
  ax ← get_nat_list axes;
  a' ← lift (transpose a ax);
  alloc (PyArray a').

Definition np_reshape (tensor new_shape : loc) : M loc :=
  a ← get_array tensor;
  sh ← get_nat_list new_shape;
  a' ← lift (reshape a sh);
  alloc (PyArray a').

(** Lines 52-67. *)
Definition build_target_order_st (axis_map : loc)
    (has_out has_up1 has_up2 has_down1 has_down2 : bool) : M loc :=
  let out_offset := if has_out then 1 else 0 in
  target_order ← alloc (PyNatList []);
  when has_out (nat_list_append target_order 0);;
  when has_up1 (i ← dict_getitem axis_map "up1";
                nat_list_append target_order (i + out_offset));;
  when has_up2 (i ← dict_getitem axis_map "up2";
                nat_list_append target_order (i + out_offset));;
  when has_down1 (i ← dict_getitem axis_map "down1";
                  nat_list_append target_order (i + out_offset));;
  when has_down2 (i ← dict_getitem axis_map "down2";
                  nat_list_append target_order (i + out_offset));;
  mret target_order.

(** Lines 80-86 and 88-94. *)
Definition group_dim_st (has1 has2 : bool) (idx : nat) (sh : list nat)
    (new_shape : loc) : M () :=
  when (has1 || has2)
    (if has1 && has2 then
       a ← lift (tuple_get sh idx);
       b ← lift (tuple_get sh (idx + 1));
       nat_list_append new_shape (a * b)
     else
       a ← lift (tuple_get sh idx);
       nat_list_append new_shape a).

(** Lines 75-94. *)
Definition build_new_shape_st
    (has_out has_up1 has_up2 has_down1 has_down2 : bool) (sh : list nat)
  : M loc :=
  let out_offset := if has_out then 1 else 0 in
  new_shape ← alloc (PyNatList []);
  when has_out (a ← lift (tuple_get sh 0); nat_list_append new_shape a);;
  let up_idx := out_offset in
  group_dim_st has_up1 has_up2 up_idx sh new_shape;;
  let down_idx :=
    out_offset + (if has_up1 then 1 else 0) + (if has_up2 then 1 else 0) in
  group_dim_st has_down1 has_down2 down_idx sh new_shape;;
  mret new_shape.

(** Lines 98-105. *)
Definition build_final_axes_st
    (has_out has_up1 has_up2 has_down1 has_down2 : bool) : M loc :=
  final_axes ← alloc (PyStrList []);
  when has_out (str_list_append final_axes "out");;
  when (has_up1 || has_up2) (str_list_append final_axes "up");;
  when (has_down1 || has_down2) (str_list_append final_axes "down");;
  mret final_axes.

(** Lines 69-73: the local names [tensor] and [shape] are bound to the
    new array and its shape, the argument object is left as it is. *)
Definition reorder_st (tensor : loc) (shape0 : list nat) (target_order : loc)
  : M (loc * list nat) :=
  a ← get_array tensor;
  current_order ← alloc (PyNatList (seq 0 (length (shape a))));
  tgt ← get_nat_list target_order;
  cur ← get_nat_list current_order;
  if bool_decide (tgt ≠ cur) then
    tensor ← np_transpose tensor target_order;
    a ← get_array tensor;
    mret (tensor, shape a)
  else mret (tensor, shape0).

Definition process_axes_st (tensor bond_axes : loc) (has_out : bool)
  : M (loc * loc) :=
  a ← get_array tensor;
  let shape := shape a in
  names ← get_str_list bond_axes;
  axis_map ← alloc (PyDict (make_axis_map names));
  has_up1 ← dict_contains axis_map "up1";
  has_up2 ← dict_contains axis_map "up2";
  has_down1 ← dict_contains axis_map "down1";
  has_down2 ← dict_contains axis_map "down2";
  target_order ←
    build_target_order_st axis_map has_out has_up1 has_up2 has_down1 has_down2;
  '(tensor, shape) ← reorder_st tensor shape target_order;
  new_shape ←
    build_new_shape_st has_out has_up1 has_up2 has_down1 has_down2 shape;
  tensor ← np_reshape tensor new_shape;
  final_axes ←
    build_final_axes_st has_out has_up1 has_up2 has_down1 has_down2;
  mret (tensor, final_axes).

End store.

Arguments pyobj : clear implicits.
Arguments M : clear implicits.

(** ** Definitions for the statements *)

(** The axis of the input tensor that a label names: its position in
    [bond_axes], after the out axis when there is one. *)
Definition label_axis (bond_axes : list string) (has_out : bool) (k : string)
  : option nat :=
  (λ i, i + out_offset has_out) <$> make_axis_map bond_axes !! k.

(** The size of a merged group, from the sizes of its axes; the first
    axis is the slower one. *)
Definition group_dims (size : nat → nat) (p1 p2 : option nat) : list nat :=
  match p1, p2 with
  | Some a, Some b => [size a * size b]
  | Some a, None => [size a]
  | None, Some b => [size b]
  | None, None => []
  end.

(** The index into a merged group, from the indices along its axes. *)
Definition group_index (size idx : nat → nat) (p1 p2 : option nat) : list nat :=
  match p1, p2 with
  | Some a, Some b => [idx a * size b + idx b]
  | Some a, None => [idx a]
  | None, Some b => [idx b]
  | None, None => []
  end.

(** The shape and the index of the canonical layout, in terms of the
    input shape, an index of the input and the labels. *)
Definition expected_shape (sh : list nat) (bond_axes : list string)
    (has_out : bool) : list nat :=
  let size a := sh !!! a in
  let axis := label_axis bond_axes has_out in
  (if has_out then [size 0] else []) ++
  group_dims size (axis "up1") (axis "up2") ++
  group_dims size (axis "down1") (axis "down2").

Definition expected_index (sh idx : list nat) (bond_axes : list string)
    (has_out : bool) : list nat :=
  let size a := sh !!! a in
  let at_axis a := idx !!! a in
  let axis := label_axis bond_axes has_out in
  (if has_out then [at_axis 0] else []) ++
  group_index size at_axis (axis "up1") (axis "up2") ++
  group_index size at_axis (axis "down1") (axis "down2").

(** The positions that lines 58-67 look up, and the target order they
    build, in closed form. *)
Definition positions (l : list string) : list nat :=
  omap (λ k, make_axis_map l !! k) vocabulary.

Definition target_order_of (l : list string) (has_out : bool) : list nat :=
  (if has_out then [0] else []) ++
  ((λ i, i + out_offset has_out)
     <$> omap (λ k, make_axis_map l !! k) vocabulary).

(** A core fits a node when [tn.Node] accepts the node's axis names for
    it; the nodes expected of [TT_State_Compression]. *)
Definition fits {scalar} (core : tensor scalar) (node : Node scalar) : Prop :=
  NoDup (axis_names node) ∧ length (axis_names node) = ndim (array_of core).

Definition with_metadata {scalar} (cores : list (tensor scalar))
    (state : list (Node scalar)) : list (Node scalar) :=
  zip_with (λ core node, MkNode core (name node) (axis_names node))
    cores state.

(** * Properties *)

(** ** Shapes and flat indices *)

Lemma numel_app (sh1 sh2 : list nat) :
  numel (sh1 ++ sh2) = numel sh1 * numel sh2.
Proof.
  induction sh1 as [|n sh1 IH]; simpl; [lia|]. rewrite IH. lia.
Qed.

Lemma numel_Permutation (sh1 sh2 : list nat) :
  sh1 ≡ₚ sh2 → numel sh1 = numel sh2.
Proof.
  induction 1; simpl; lia.
Qed.

Lemma length_strides (sh : list nat) : length (strides sh) = length sh.
Proof. induction sh; simpl; congruence. Qed.

Lemma length_unravel (sh : list nat) (k : nat) : length (unravel sh k) = length sh.
Proof. revert k. induction sh; intros k; simpl; congruence. Qed.

Lemma offset_cons (s i : nat) (st idx : list nat) :
  offset (s :: st) (i :: idx) = i * s + offset st idx.
Proof. reflexivity. Qed.

(** Row-major numbering: the [k]-th multi-index sits at offset [k]. *)
Lemma offset_unravel (sh : list nat) (k : nat) :
  k < numel sh → offset (strides sh) (unravel sh k) = k.
Proof.
  revert k. induction sh as [|n sh IH]; intros k Hk; simpl in *.
  - unfold offset. simpl. lia.
  - rewrite offset_cons.
    assert (numel sh ≠ 0) as Hm by (intros E; rewrite E in Hk; lia).
    rewrite IH by (apply Nat.mod_upper_bound; exact Hm).
    pose proof (Nat.div_mod k (numel sh) Hm). lia.
Qed.

Lemma in_bounds_unravel (sh : list nat) (k : nat) :
  k < numel sh → in_bounds sh (unravel sh k) = true.
Proof.
  revert k. induction sh as [|n sh IH]; intros k Hk; simpl in *; [done|].
  assert (numel sh ≠ 0) as Hm by (intros E; rewrite E in Hk; lia).
  apply andb_true_intro; split.
  - apply bool_decide_eq_true. apply Nat.Div0.div_lt_upper_bound. lia.
  - apply IH. apply Nat.mod_upper_bound; exact Hm.
Qed.

(** A valid multi-index addresses an element of the array. *)
Lemma offset_in_bounds (sh idx : list nat) :
  in_bounds sh idx = true → offset (strides sh) idx < numel sh.
Proof.
  revert idx. induction sh as [|n sh IH]; intros [|i idx] Hb; simpl in *;
    try done.
  - unfold offset; simpl; lia.
  - apply andb_prop in Hb as [Hi Hb]. apply bool_decide_eq_true in Hi.
    rewrite offset_cons. specialize (IH _ Hb). nia.
Qed.

Lemma lookup_total_seq_id (l : list nat) :
  (λ a, l !!! a) <$> seq 0 (length l) = l.
Proof.
  apply list_eq. intros i. rewrite list_lookup_fmap.
  destruct (decide (i < length l)) as [Hi|Hi].
  - rewrite lookup_seq_lt by done. simpl.
    destruct (lookup_lt_is_Some_2 l i Hi) as [x Hx].
    rewrite Hx. f_equal. by apply list_lookup_total_correct.
  - rewrite lookup_seq_ge by lia. simpl. symmetry. apply lookup_ge_None. lia.
Qed.

Lemma omap_lookup_seq_from {T} (p d : list T) :
  omap (λ k, (p ++ d) !! k) (seq (length p) (length d)) = d.
Proof.
  revert p. induction d as [|x d IH]; intros p; simpl; [done|].
  rewrite list_lookup_middle by done. f_equal.
  specialize (IH (p ++ [x])). rewrite length_app, <- app_assoc in IH.
  simpl in IH. rewrite Nat.add_1_r in IH. exact IH.
Qed.

Lemma omap_lookup_seq {T} (d : list T) (f : nat → nat) (n : nat) :
  n = length d → (∀ k, k < n → f k = k) →
  omap (λ k, d !! f k) (seq 0 n) = d.
Proof.
  intros -> Hf. etransitivity; [|exact (omap_lookup_seq_from [] d)]. simpl.
  apply list_omap_ext. apply Forall2_same_length_lookup_2; [done|].
  intros i a b Ha Hb. rewrite Ha in Hb. injection Hb as <-.
  apply lookup_seq in Ha as [-> Hlt]. simpl. by rewrite Hf.
Qed.

(** ** [np.transpose] and [np.reshape] *)

Lemma check_axes_Ok (n : nat) (seen axes : list nat) :
  Forall (λ a, a < n) axes → NoDup axes → (∀ a, a ∈ axes → a ∉ seen) →
  check_axes n seen axes = Ok ().
Proof.
  revert seen. induction axes as [|a axes IH]; intros seen Hlt Hnd Hseen;
    simpl; [done|].
  apply Forall_cons in Hlt as [Ha Hlt]. apply NoDup_cons in Hnd as [Hna Hnd].
  rewrite bool_decide_eq_false_2 by lia.
  rewrite bool_decide_eq_false_2 by (apply Hseen; left).
  apply IH; try done. intros b Hb [->|Hin]%elem_of_cons; [done|].
  by apply (Hseen b); [right|].
Qed.

Lemma check_axes_inv (n : nat) (seen axes : list nat) :
  check_axes n seen axes = Ok () →
  Forall (λ a, a < n) axes ∧ NoDup axes ∧ (∀ a, a ∈ axes → a ∉ seen).
Proof.
  revert seen. induction axes as [|a axes IH]; intros seen; simpl.
  - intros _. split_and!; [constructor|constructor|]. intros a Ha.
    by apply elem_of_nil in Ha.
  - case_bool_decide as Hn; [done|]. case_bool_decide as Hs; [done|].
    intros (Hlt & Hnd & Hseen)%IH. split_and!.
    + constructor; [lia|done].
    + constructor; [|done]. intros Hin. apply (Hseen a Hin). left.
    + intros b [->|Hb]%elem_of_cons; [done|].
      intros Hin. apply (Hseen b Hb). by right.
Qed.

Section ndarray_facts.
Context {A : Type}.
Implicit Types t : ndarray A.

Lemma transpose_Ok t (axes : list nat) :
  length axes = ndim t → Forall (λ a, a < ndim t) axes → NoDup axes →
  ∃ t', transpose t axes = Ok t' ∧ shape t' = (λ a, shape t !!! a) <$> axes.
Proof.
  intros Hlen Hlt Hnd. unfold transpose.
  rewrite bool_decide_eq_false_2 by (intros ?; done).
  rewrite check_axes_Ok; try done; [|intros a _; apply not_elem_of_nil].
  simpl. eexists. split; [reflexivity|done].
Qed.

Lemma transpose_inv t t' (axes : list nat) :
  transpose t axes = Ok t' →
  length axes = ndim t ∧ Forall (λ a, a < ndim t) axes ∧ NoDup axes ∧
  shape t' = (λ a, shape t !!! a) <$> axes.
Proof.
  unfold transpose. case_bool_decide as Hlen; [done|].
  destruct (check_axes (ndim t) [] axes) as [[]|e] eqn:Hc; simpl; [|done].
  apply check_axes_inv in Hc as (? & ? & _).
  intros [= <-]. simpl.
  destruct (decide (length axes = ndim t)); [done|]. by destruct Hlen.
Qed.

(** Transposing by the identity permutation changes nothing. *)
Lemma transpose_id t : wf t → transpose t (seq 0 (ndim t)) = Ok t.
Proof.
  intros Hwf. unfold transpose, ndim.
  rewrite bool_decide_eq_false_2 by (rewrite length_seq; intros ?; done).
  rewrite check_axes_Ok; simpl.
  - rewrite !lookup_total_seq_id.
    pose proof (length_strides (shape t)) as Hs.
    rewrite <- Hs, lookup_total_seq_id.
    destruct t as [sh d]. simpl in *. f_equal. f_equal.
    apply omap_lookup_seq; [done|].
    intros k Hk. by apply offset_unravel.
  - apply Forall_seq. intros; lia.
  - apply NoDup_seq.
  - intros a _. apply not_elem_of_nil.
Qed.

Lemma reshape_Ok t (new_shape : list nat) :
  numel new_shape = numel (shape t) →
  reshape t new_shape = Ok (NDArray new_shape (data t)).
Proof. intros H. unfold reshape. by rewrite bool_decide_eq_true_2. Qed.

Lemma reshape_same t : reshape t (shape t) = Ok t.
Proof. rewrite reshape_Ok by done. by destruct t. Qed.

End ndarray_facts.

Lemma shape_Permutation (sh : list nat) (axes : list nat) :
  axes ≡ₚ seq 0 (length sh) → (λ a, sh !!! a) <$> axes ≡ₚ sh.
Proof.
  intros H. rewrite H. by rewrite lookup_total_seq_id.
Qed.

(** ** The dict [axis_map] *)

Lemma make_axis_map_snoc (l : list string) (x : string) :
  make_axis_map (l ++ [x]) = <[x := length l]> (make_axis_map l).
Proof.
  unfold make_axis_map. rewrite imap_app, foldl_app. simpl.
  by rewrite Nat.add_0_r.
Qed.

(** A name maps to a position where the list holds it. *)
Lemma make_axis_map_Some (l : list string) (k : string) (i : nat) :
  make_axis_map l !! k = Some i → l !! i = Some k.
Proof.
  revert i. induction l as [|x l IH] using rev_ind; intros i.
  - unfold make_axis_map. simpl. by rewrite lookup_empty.
  - rewrite make_axis_map_snoc, lookup_insert. case_decide as Hx.
    + intros [= <-]. subst. by rewrite list_lookup_middle.
    + intros H%IH. rewrite lookup_app_l; [done|]. by eapply lookup_lt_Some.
Qed.

(** The keys of the dict are the names of the list. *)
Lemma make_axis_map_is_Some (l : list string) (k : string) :
  is_Some (make_axis_map l !! k) ↔ k ∈ l.
Proof.
  induction l as [|x l IH] using rev_ind.
  - unfold make_axis_map. simpl. rewrite lookup_empty. split.
    + by intros [? ?]. 
    + by intros ?%elem_of_nil.
  - rewrite make_axis_map_snoc, lookup_insert, elem_of_app, list_elem_of_singleton.
    case_decide as Hx; subst.
    + split; [by right|by eexists].
    + rewrite IH. split; [intros ?; by left|]. by intros [?|?].
Qed.

(** With distinct names, a name maps to its one position. *)
Lemma make_axis_map_NoDup (l : list string) (k : string) (i : nat) :
  NoDup l → l !! i = Some k → make_axis_map l !! k = Some i.
Proof.
  intros Hnd Hi. destruct (make_axis_map l !! k) as [j|] eqn:Hj.
  - apply make_axis_map_Some in Hj. f_equal. by eapply NoDup_lookup.
  - assert (is_Some (make_axis_map l !! k)) as [? ?]; [|congruence].
    apply make_axis_map_is_Some. by eapply list_elem_of_lookup_2.
Qed.

Lemma dict_has_make_axis_map (l : list string) (k : string) :
  dict_has (make_axis_map l) k = bool_decide (k ∈ l).
Proof.
  unfold dict_has. apply bool_decide_ext, make_axis_map_is_Some.
Qed.

(** ** The target order *)

Lemma dict_has_Some (m : gmap string nat) (k : string) (i : nat) :
  m !! k = Some i → dict_has m k = true.
Proof. intros H. unfold dict_has. rewrite H. by apply bool_decide_eq_true_2. Qed.

Lemma dict_has_None (m : gmap string nat) (k : string) :
  m !! k = None → dict_has m k = false.
Proof.
  intros H. unfold dict_has. rewrite H. apply bool_decide_eq_false_2.
  by intros [? ?].
Qed.

Lemma append_if_dict (m : gmap string nat) (k : string) (off : nat)
    (l : list nat) :
  append_if (dict_has m k) l (i ← dict_get m k; Ok (i + off)) =
  Ok (l ++ ((λ i, i + off) <$> option_list (m !! k))).
Proof.
  unfold dict_get. destruct (m !! k) as [i|] eqn:Hk.
  - by rewrite (dict_has_Some _ _ _ Hk).
  - rewrite (dict_has_None _ _ Hk). simpl. by rewrite app_nil_r.
Qed.

(** The target order in closed form: the out axis, then the positions of
    the recognised labels in vocabulary order.  Labels outside the
    vocabulary are never looked up. *)
Lemma build_target_order_eq (m : gmap string nat) (has_out : bool) :
  build_target_order m has_out =
  Ok ((if has_out then [0] else []) ++
      ((λ i, i + out_offset has_out) <$> omap (λ k, m !! k) vocabulary)).
Proof.
  unfold build_target_order. fold (out_offset has_out).
  rewrite !append_if_dict. simpl. rewrite !append_if_dict. simpl.
  rewrite !append_if_dict. simpl. rewrite !append_if_dict. simpl.
  f_equal. rewrite <- !app_assoc.
  destruct has_out; simpl; f_equal;
    destruct (m !! "up1"), (m !! "up2"), (m !! "down1"), (m !! "down2"); done.
Qed.

Lemma NoDup_omap_inj {T U} (f : T → option U) (l : list T) :
  (∀ x y z, f x = Some z → f y = Some z → x = y) →
  NoDup l → NoDup (omap f l).
Proof.
  intros Hinj. induction 1 as [|x l Hx Hnd IH]; simpl; [constructor|].
  destruct (f x) as [z|] eqn:Hfx; [|done].
  constructor; [|done]. intros (y & Hy & Hfy)%list_elem_of_omap.
  by rewrite (Hinj x y z Hfx Hfy) in Hx.
Qed.

(** On a valid label list the recognised positions are all positions. *)
Lemma positions_Permutation (l : list string) :
  NoDup l → l ⊆ vocabulary →
  omap (λ k, make_axis_map l !! k) vocabulary ≡ₚ seq 0 (length l).
Proof.
  intros Hnd Hsub. apply NoDup_Permutation.
  - apply NoDup_omap_inj.
    + intros x y z Hx%make_axis_map_Some Hy%make_axis_map_Some. congruence.
    + unfold vocabulary. compute_done.
  - apply NoDup_seq.
  - intros i. rewrite list_elem_of_omap, elem_of_seq. split.
    + intros (k & _ & Hk%make_axis_map_Some). apply lookup_lt_Some in Hk. lia.
    + intros [_ Hi]. destruct (lookup_lt_is_Some_2 l i) as [k Hk]; [lia|].
      exists k. split; [|by apply make_axis_map_NoDup].
      apply Hsub. by eapply list_elem_of_lookup_2.
Qed.

Lemma target_order_Permutation (l : list string) (has_out : bool) :
  NoDup l → l ⊆ vocabulary →
  ∃ tgt, build_target_order (make_axis_map l) has_out = Ok tgt ∧
         tgt ≡ₚ seq 0 (length l + out_offset has_out).
Proof.
  intros Hnd Hsub. rewrite build_target_order_eq. eexists; split; [done|].
  rewrite (positions_Permutation l Hnd Hsub). destruct has_out; simpl.
  - rewrite Nat.add_1_r. simpl. constructor.
    rewrite <- fmap_S_seq. apply Permutation_refl'. apply list_fmap_ext.
    intros; lia.
  - rewrite Nat.add_0_r. apply Permutation_refl'.
    etransitivity; [|apply list_fmap_id].
    apply list_fmap_ext. intros; simpl; lia.
Qed.

Lemma length_target_order (m : gmap string nat) (has_out : bool)
    (tgt : list nat) :
  build_target_order m has_out = Ok tgt →
  length tgt =
    out_offset has_out + Nat.b2n (dict_has m "up1") + Nat.b2n (dict_has m "up2")
    + Nat.b2n (dict_has m "down1") + Nat.b2n (dict_has m "down2").
Proof.
  rewrite build_target_order_eq. intros [= <-].
  rewrite length_app, length_fmap. unfold vocabulary, dict_has. simpl.
  destruct has_out, (m !! "up1"), (m !! "up2"), (m !! "down1"),
    (m !! "down2"); reflexivity.
Qed.

(** A list of [n] distinct numbers below [n] is a permutation of
    [range(n)]: what [np.transpose] accepts. *)
Lemma axes_Permutation (n : nat) (axes : list nat) :
  length axes = n → Forall (λ a, a < n) axes → NoDup axes →
  axes ≡ₚ seq 0 n.
Proof.
  intros Hlen Hlt Hnd. apply submseteq_length_Permutation.
  - apply NoDup_submseteq; [done|]. intros a Ha. apply elem_of_seq.
    rewrite Forall_forall in Hlt. specialize (Hlt a Ha). lia.
  - rewrite length_seq. lia.
Qed.

Lemma Permutation_axes (n : nat) (axes : list nat) :
  axes ≡ₚ seq 0 n →
  length axes = n ∧ Forall (λ a, a < n) axes ∧ NoDup axes.
Proof.
  intros H. split_and!.
  - by rewrite H, length_seq.
  - rewrite H. apply Forall_seq. intros; lia.
  - rewrite H. apply NoDup_seq.
Qed.

(** ** What [np.transpose] does to the elements *)

Lemma index_of_lookup (a : nat) (l : list nat) :
  a ∈ l → l !! index_of a l = Some a.
Proof.
  induction l as [|b l IH]; [by intros ?%elem_of_nil|].
  intros Hin. simpl. case_decide as Hab; [by subst|].
  simpl. apply IH. by apply elem_of_cons in Hin as [?|?].
Qed.

Lemma index_of_NoDup (l : list nat) (j a : nat) :
  NoDup l → l !! j = Some a → index_of a l = j.
Proof.
  intros Hnd Hj. eapply NoDup_lookup; [done| |done].
  apply index_of_lookup. by eapply list_elem_of_lookup_2.
Qed.

Lemma in_bounds_Forall2 (sh idx : list nat) :
  in_bounds sh idx = true ↔ Forall2 (λ i n, i < n) idx sh.
Proof.
  revert idx. induction sh as [|n sh IH]; intros [|i idx]; simpl.
  - split; [constructor|done].
  - split; [done|]. inversion 1.
  - split; [done|]. inversion 1.
  - rewrite andb_true_iff, bool_decide_eq_true, IH. split.
    + intros [? ?]. by constructor.
    + inversion 1; subst. done.
Qed.

Lemma unravel_offset (sh idx : list nat) :
  in_bounds sh idx = true → unravel sh (offset (strides sh) idx) = idx.
Proof.
  revert idx. induction sh as [|n sh IH]; intros [|i idx] Hb; simpl in *;
    try done.
  apply andb_prop in Hb as [Hi Hb]. apply bool_decide_eq_true in Hi.
  rewrite offset_cons. pose proof (offset_in_bounds _ _ Hb) as Hlt.
  assert (numel sh ≠ 0) as Hm by lia.
  rewrite Nat.div_add_l by done. rewrite (Nat.div_small _ _ Hlt).
  rewrite Nat.add_0_r. f_equal.
  rewrite Nat.add_comm, Nat.Div0.mod_add, (Nat.mod_small _ _ Hlt).
  by apply IH.
Qed.

Lemma offset_fmap (f g : nat → nat) (l : list nat) :
  offset (f <$> l) (g <$> l) = sum_list ((λ a, g a * f a) <$> l).
Proof.
  induction l as [|a l IH]; [done|].
  rewrite !fmap_cons, offset_cons. simpl. by rewrite IH.
Qed.

Lemma offset_lookup_total (st idx : list nat) :
  length st = length idx →
  offset st idx =
  sum_list ((λ a, idx !!! a * st !!! a) <$> seq 0 (length idx)).
Proof.
  intros Hlen. rewrite <- offset_fmap.
  rewrite lookup_total_seq_id. by rewrite <- Hlen, lookup_total_seq_id.
Qed.

(** Permuting strides and index alike keeps the offset. *)
Lemma offset_permute (axes st idx : list nat) :
  axes ≡ₚ seq 0 (length idx) → length st = length idx →
  offset ((λ a, st !!! a) <$> axes) ((λ a, idx !!! a) <$> axes)
  = offset st idx.
Proof.
  intros Hp Hlen. rewrite offset_fmap, (offset_lookup_total _ _ Hlen).
  by rewrite Hp.
Qed.

Lemma length_unpermute (axes idx : list nat) :
  length (unpermute axes idx) = length axes.
Proof. unfold unpermute. by rewrite length_fmap, length_seq. Qed.

Lemma lookup_unpermute (axes idx : list nat) (a : nat) :
  a < length axes →
  unpermute axes idx !! a = Some (idx !!! index_of a axes).
Proof.
  intros Ha. unfold unpermute. rewrite list_lookup_fmap.
  by rewrite lookup_seq_lt.
Qed.

(** [unpermute] undoes the permutation of an index by [axes]. *)
Lemma permute_unpermute (axes idx : list nat) :
  axes ≡ₚ seq 0 (length axes) → length idx = length axes →
  (λ a, unpermute axes idx !!! a) <$> axes = idx.
Proof.
  intros Hp Hlen. apply list_eq. intros j. rewrite list_lookup_fmap.
  destruct (axes !! j) as [a|] eqn:Hj; simpl.
  - assert (a < length axes) as Ha.
    { apply list_elem_of_lookup_2 in Hj. rewrite Hp in Hj.
      apply elem_of_seq in Hj. lia. }
    assert (NoDup axes) as Hnd by (rewrite Hp; apply NoDup_seq).
    rewrite (list_lookup_total_correct _ _ _ (lookup_unpermute _ idx _ Ha)).
    rewrite (index_of_NoDup _ _ _ Hnd Hj).
    apply lookup_lt_Some in Hj.
    destruct (lookup_lt_is_Some_2 idx j) as [x Hx]; [lia|].
    rewrite Hx. f_equal. by apply list_lookup_total_correct.
  - symmetry. apply lookup_ge_None. apply lookup_ge_None in Hj. lia.
Qed.

Lemma in_bounds_permute (axes sh idx : list nat) :
  Forall (λ a, a < length sh) axes → in_bounds sh idx = true →
  in_bounds ((λ a, sh !!! a) <$> axes) ((λ a, idx !!! a) <$> axes) = true.
Proof.
  rewrite !in_bounds_Forall2. intros Hlt Hb.
  apply Forall2_fmap, Forall_Forall2_diag.
  eapply Forall_impl; [exact Hlt|]. intros a Ha. simpl.
  destruct (lookup_lt_is_Some_2 sh a Ha) as [n Hn].
  destruct (Forall2_lookup_r _ _ _ _ _ Hb Hn) as (i & Hi & Hin).
  by rewrite (list_lookup_total_correct _ _ _ Hn),
    (list_lookup_total_correct _ _ _ Hi).
Qed.

Lemma in_bounds_unpermute (axes sh idx : list nat) :
  axes ≡ₚ seq 0 (length sh) →
  in_bounds ((λ a, sh !!! a) <$> axes) idx = true →
  in_bounds sh (unpermute axes idx) = true.
Proof.
  rewrite !in_bounds_Forall2. intros Hp Hb.
  assert (length axes = length sh) as Hlen by (by rewrite Hp, length_seq).
  apply Forall2_same_length_lookup_2.
  { by rewrite length_unpermute. }
  intros a x n Hx Hn. pose proof (lookup_lt_Some _ _ _ Hn) as Ha.
  rewrite lookup_unpermute in Hx by lia. injection Hx as <-.
  assert (a ∈ axes) as Hin by (rewrite Hp; apply elem_of_seq; lia).
  pose proof (index_of_lookup _ _ Hin) as Hj.
  assert (((λ a, sh !!! a) <$> axes) !! index_of a axes = Some n) as Hs.
  { rewrite list_lookup_fmap, Hj. simpl. f_equal.
    by apply list_lookup_total_correct. }
  destruct (Forall2_lookup_r _ _ _ _ _ Hb Hs) as (i & Hi & Hin').
  by rewrite (list_lookup_total_correct _ _ _ Hi).
Qed.

(** The [k]-th element of the transposed array, in row-major order of
    the result, is the element of the argument at the index that
    [axes] permutes into the [k]-th index of the result. *)
Lemma transpose_offset (sh axes : list nat) (k : nat) :
  axes ≡ₚ seq 0 (length sh) →
  k < numel ((λ a, sh !!! a) <$> axes) →
  ∃ idx, in_bounds sh idx = true ∧
    unravel ((λ a, sh !!! a) <$> axes) k = (λ a, idx !!! a) <$> axes ∧
    offset ((λ a, strides sh !!! a) <$> axes)
           (unravel ((λ a, sh !!! a) <$> axes) k)
    = offset (strides sh) idx.
Proof.
  intros Hp Hk. set (sh' := (λ a, sh !!! a) <$> axes) in *.
  assert (length axes = length sh) as Hlen by (by rewrite Hp, length_seq).
  pose proof (in_bounds_unravel sh' k Hk) as Hb'.
  exists (unpermute axes (unravel sh' k)).
  assert ((λ a, unpermute axes (unravel sh' k) !!! a) <$> axes
          = unravel sh' k) as Hpu.
  { apply permute_unpermute; [by rewrite Hlen|].
    rewrite length_unravel. unfold sh'. by rewrite length_fmap. }
  split_and!.
  - by apply in_bounds_unpermute.
  - done.
  - rewrite <- Hpu at 1. apply offset_permute.
    + by rewrite length_unpermute, Hlen.
    + by rewrite length_strides, length_unpermute.
Qed.

Lemma transpose_offsets_Permutation (sh axes : list nat) :
  axes ≡ₚ seq 0 (length sh) →
  (λ k, offset ((λ a, strides sh !!! a) <$> axes)
               (unravel ((λ a, sh !!! a) <$> axes) k))
    <$> seq 0 (numel ((λ a, sh !!! a) <$> axes))
  ≡ₚ seq 0 (numel sh).
Proof.
  intros Hp. set (sh' := (λ a, sh !!! a) <$> axes).
  assert (numel sh' = numel sh) as Hnum
    by (by apply numel_Permutation, shape_Permutation).
  apply axes_Permutation.
  - by rewrite length_fmap, length_seq.
  - apply Forall_fmap, Forall_seq. intros k [_ Hk]. simpl in *.
    destruct (transpose_offset sh axes k Hp Hk) as (idx & Hb & _ & Ho).
    fold sh' in Ho. rewrite Ho. by apply offset_in_bounds.
  - apply NoDup_fmap_2_strong; [|apply NoDup_seq].
    intros k1 k2 [_ Hk1]%elem_of_seq [_ Hk2]%elem_of_seq. simpl in *.
    destruct (transpose_offset sh axes k1 Hp Hk1) as (i1 & Hb1 & Hu1 & Ho1).
    destruct (transpose_offset sh axes k2 Hp Hk2) as (i2 & Hb2 & Hu2 & Ho2).
    fold sh' in Ho1, Ho2. rewrite Ho1, Ho2.
    intros Heq.
    assert (i1 = i2) as ->.
    { by rewrite <- (unravel_offset sh i1 Hb1), Heq, unravel_offset. }
    rewrite <- (offset_unravel sh' k1 Hk1), <- (offset_unravel sh' k2 Hk2).
    fold sh' in Hu1, Hu2. by rewrite Hu1, Hu2.
Qed.

Lemma omap_fmap_compose {T U} (f : nat → option U) (g : T → nat) (l : list T) :
  omap (λ x, f (g x)) l = omap f (g <$> l).
Proof.
  induction l as [|x l IH]; csimpl; [done|]. by rewrite IH.
Qed.

Lemma omap_Forall2 {T U} (g : T → option U) (l : list T) :
  Forall (λ x, is_Some (g x)) l →
  Forall2 (λ x y, g x = Some y) l (omap g l).
Proof.
  induction 1 as [|x l [y Hy] _ IH]; simpl; [constructor|].
  rewrite Hy. by constructor.
Qed.

Section transpose_facts.
Context {A : Type}.
Implicit Types t : ndarray A.

(** [np.transpose] only moves the elements: the result holds the
    elements of the argument, each once. *)
Lemma transpose_data_Permutation t t' (axes : list nat) :
  wf t → transpose t axes = Ok t' → data t' ≡ₚ data t.
Proof.
  intros Hwf Htr.
  pose proof (transpose_inv _ _ _ Htr) as (Hlen & Hlt & Hnd & _).
  pose proof (axes_Permutation _ _ Hlen Hlt Hnd) as Hp.
  unfold transpose in Htr. rewrite bool_decide_eq_false_2 in Htr
    by (intros ?; done).
  destruct (check_axes (ndim t) [] axes); simpl in Htr; [|done].
  injection Htr as <-. simpl.
  rewrite (omap_fmap_compose (λ k, data t !! k)).
  rewrite (transpose_offsets_Permutation _ _ Hp).
  by rewrite (omap_lookup_seq (data t) id).
Qed.

Lemma transpose_wf t t' (axes : list nat) :
  wf t → transpose t axes = Ok t' → wf t'.
Proof.
  intros Hwf Htr. unfold wf.
  rewrite (Permutation_length (transpose_data_Permutation _ _ _ Hwf Htr)).
  pose proof (transpose_inv _ _ _ Htr) as (Hlen & Hlt & Hnd & ->).
  rewrite Hwf. symmetry.
  by apply numel_Permutation, shape_Permutation, axes_Permutation.
Qed.

(** The element of the result at the permuted index is the element of
    the argument at the index: axis [j] of the result is axis [axes[j]]
    of the argument. *)
Lemma transpose_getitem t t' (axes idx : list nat) :
  wf t → transpose t axes = Ok t' → in_bounds (shape t) idx = true →
  getitem t' ((λ a, idx !!! a) <$> axes) = getitem t idx.
Proof.
  intros Hwf Htr Hb.
  pose proof (transpose_inv _ _ _ Htr) as (Hlen & Hlt & Hnd & Hsh).
  pose proof (axes_Permutation _ _ Hlen Hlt Hnd) as Hp.
  assert (length idx = length (shape t)) as Hli.
  { apply in_bounds_Forall2 in Hb. by eapply Forall2_length. }
  unfold getitem. rewrite Hsh, Hb.
  pose proof (in_bounds_permute axes _ _ Hlt Hb) as Hb'.
  rewrite Hb'.
  set (sh' := (λ a, shape t !!! a) <$> axes) in *.
  set (idx' := (λ a, idx !!! a) <$> axes) in *.
  pose proof (offset_in_bounds _ _ Hb') as Hk.
  unfold transpose in Htr. rewrite bool_decide_eq_false_2 in Htr
    by (intros ?; done).
  destruct (check_axes (ndim t) [] axes); simpl in Htr; [|done].
  injection Htr as <-. simpl. fold sh'.
  set (g := λ k, data t !! offset ((λ a, strides (shape t) !!! a) <$> axes)
                                 (unravel sh' k)).
  assert (Forall (λ k, is_Some (g k)) (seq 0 (numel sh'))) as Hall.
  { apply Forall_seq. intros k [_ Hk']. simpl in Hk'. unfold g.
    destruct (transpose_offset _ _ k Hp Hk') as (i & Hbi & _ & Ho).
    fold sh' in Ho. rewrite Ho. apply lookup_lt_is_Some. rewrite Hwf.
    by apply offset_in_bounds. }
  destruct (Forall2_lookup_l _ _ _ _ _ (omap_Forall2 g _ Hall)
              (lookup_seq_lt 0 _ _ Hk)) as (y & -> & <-).
  unfold g. simpl. rewrite (unravel_offset _ _ Hb'). unfold idx'.
  rewrite offset_permute; [done|by rewrite Hli|].
  by rewrite length_strides.
Qed.

End transpose_facts.

(** ** The new shape *)

(** Once the permuted shape has one axis per entry of the target order,
    no index of lines 75-94 is out of range, the groups keep their
    place, and merging keeps the number of elements. *)
Lemma build_new_shape_Ok (has_out has_up1 has_up2 has_down1 has_down2 : bool)
    (sh : list nat) :
  length sh = out_offset has_out + Nat.b2n has_up1 + Nat.b2n has_up2
              + Nat.b2n has_down1 + Nat.b2n has_down2 →
  ∃ new_shape,
    build_new_shape has_out has_up1 has_up2 has_down1 has_down2 sh
      = Ok new_shape ∧
    numel new_shape = numel sh ∧
    length new_shape =
      length (build_final_axes has_out has_up1 has_up2 has_down1 has_down2).
Proof.
  intros Hlen.
  destruct has_out, has_up1, has_up2, has_down1, has_down2; simpl in Hlen;
    repeat (destruct sh as [|? sh]; simpl in Hlen; try lia);
    (eexists; split; [reflexivity|]; simpl; split; [lia|reflexivity]).
Qed.

Section process_axes_facts.
Context {A : Type}.
Implicit Types t : ndarray A.

(** The shape that [reorder] returns is the shape of the tensor it
    returns. *)
Lemma reorder_pair t t' (sh' tgt : list nat) :
  reorder t (shape t) tgt = Ok (t', sh') → sh' = shape t'.
Proof.
  unfold reorder. case_bool_decide.
  - destruct (transpose t tgt); simpl; congruence.
  - congruence.
Qed.

Lemma reorder_transpose t t' (sh' tgt : list nat) :
  reorder t (shape t) tgt = Ok (t', sh') →
  tgt ≠ seq 0 (ndim t) ∧ transpose t tgt = Ok t' ∨
  tgt = seq 0 (ndim t) ∧ t' = t.
Proof.
  unfold reorder. case_bool_decide.
  - destruct (transpose t tgt); simpl; [|done]. intros [= <- _]. by left.
  - intros [= <- _]. by right.
Qed.

Lemma reorder_inv t t' (tgt : list nat) :
  reorder t (shape t) tgt = Ok (t', shape t') →
  tgt ≡ₚ seq 0 (ndim t) ∧ shape t' = (λ a, shape t !!! a) <$> tgt.
Proof.
  intros [[_ Htr]|[-> ->]]%reorder_transpose.
  - apply transpose_inv in Htr as (Hlen & Hlt & Hnd & Hsh). split; [|done].
    by apply axes_Permutation.
  - split; [done|]. by rewrite lookup_total_seq_id.
Qed.

Lemma reorder_Ok t (tgt : list nat) :
  tgt ≡ₚ seq 0 (ndim t) → ∃ t', reorder t (shape t) tgt = Ok (t', shape t').
Proof.
  intros (Hlen & Hlt & Hnd)%Permutation_axes. unfold reorder.
  case_bool_decide; [|by eexists].
  destruct (transpose_Ok t tgt Hlen Hlt Hnd) as (t' & -> & _). by eexists.
Qed.

Lemma reorder_shape t t' (tgt : list nat) :
  reorder t (shape t) tgt = Ok (t', shape t') →
  length (shape t') = length tgt ∧ numel (shape t') = numel (shape t).
Proof.
  intros [Hp ->]%reorder_inv. split; [by rewrite length_fmap|].
  apply numel_Permutation, shape_Permutation, Hp.
Qed.

Lemma reorder_data t t' (tgt : list nat) :
  wf t → reorder t (shape t) tgt = Ok (t', shape t') → data t' ≡ₚ data t.
Proof.
  intros Hwf [[_ Htr]|[-> ->]]%reorder_transpose; [|done].
  by eapply transpose_data_Permutation.
Qed.

(** All of [process_axes] after the transposition: it cannot raise. *)
Lemma process_axes_after_reorder t t' (l : list string) (has_out : bool)
    (tgt : list nat) :
  build_target_order (make_axis_map l) has_out = Ok tgt →
  reorder t (shape t) tgt = Ok (t', shape t') →
  ∃ new_shape,
    build_new_shape has_out
      (dict_has (make_axis_map l) "up1") (dict_has (make_axis_map l) "up2")
      (dict_has (make_axis_map l) "down1") (dict_has (make_axis_map l) "down2")
      (shape t') = Ok new_shape ∧
    numel new_shape = numel (shape t) ∧
    process_axes t l has_out =
      Ok (NDArray new_shape (data t'),
          build_final_axes has_out
            (dict_has (make_axis_map l) "up1")
            (dict_has (make_axis_map l) "up2")
            (dict_has (make_axis_map l) "down1")
            (dict_has (make_axis_map l) "down2")) ∧
    length new_shape =
      length (build_final_axes has_out
            (dict_has (make_axis_map l) "up1")
            (dict_has (make_axis_map l) "up2")
            (dict_has (make_axis_map l) "down1")
            (dict_has (make_axis_map l) "down2")).
Proof.
  intros Htgt Hre. pose proof (reorder_shape _ _ _ Hre) as [Hlen Hnum].
  rewrite (length_target_order _ _ _ Htgt) in Hlen.
  destruct (build_new_shape_Ok _ _ _ _ _ _ Hlen) as (ns & Hns & Hn & Hl).
  exists ns. split_and!; [done|congruence| |done].
  unfold process_axes. rewrite Htgt. simpl. rewrite Hre. simpl.
  rewrite Hns. simpl. by rewrite reshape_Ok.
Qed.

(** The transposition is the only step of [process_axes] that can
    raise. *)
Lemma process_axes_raise t (l : list string) (has_out : bool)
    (tgt : list nat) (e : exn) :
  build_target_order (make_axis_map l) has_out = Ok tgt →
  reorder t (shape t) tgt = Raise e →
  process_axes t l has_out = Raise e.
Proof.
  intros Htgt Hre. unfold process_axes. rewrite Htgt. simpl.
  by rewrite Hre.
Qed.

End process_axes_facts.

(** * The claims about [process_axes] *)

Section process_axes_claims.
Context {A : Type}.
Implicit Types t : ndarray A.

Lemma valid_input_target_order t (l : list string) (has_out : bool) :
  valid_input t l has_out →
  ∃ tgt, build_target_order (make_axis_map l) has_out = Ok tgt ∧
         tgt ≡ₚ seq 0 (ndim t).
Proof.
  intros (Hnd & Hsub & Hlen). rewrite <- Hlen.
  by apply target_order_Permutation.
Qed.

(** What [process_axes] returns on a valid input. *)
Lemma process_axes_valid t (l : list string) (has_out : bool) :
  valid_input t l has_out →
  ∃ tgt t' new_shape,
    build_target_order (make_axis_map l) has_out = Ok tgt ∧
    tgt ≡ₚ seq 0 (ndim t) ∧
    reorder t (shape t) tgt = Ok (t', shape t') ∧
    build_new_shape has_out
      (dict_has (make_axis_map l) "up1") (dict_has (make_axis_map l) "up2")
      (dict_has (make_axis_map l) "down1") (dict_has (make_axis_map l) "down2")
      (shape t') = Ok new_shape ∧
    numel new_shape = numel (shape t) ∧
    length new_shape =
      length (build_final_axes has_out
        (dict_has (make_axis_map l) "up1") (dict_has (make_axis_map l) "up2")
        (dict_has (make_axis_map l) "down1")
        (dict_has (make_axis_map l) "down2")) ∧
    process_axes t l has_out =
      Ok (NDArray new_shape (data t'),
          build_final_axes has_out
            (dict_has (make_axis_map l) "up1")
            (dict_has (make_axis_map l) "up2")
            (dict_has (make_axis_map l) "down1")
            (dict_has (make_axis_map l) "down2")).
Proof.
  intros Hv. destruct (valid_input_target_order _ _ _ Hv) as (tgt & Htgt & Hp).
  destruct (reorder_Ok t tgt Hp) as [t' Hre].
  destruct (process_axes_after_reorder _ _ _ _ _ Htgt Hre)
    as (ns & Hns & Hnum & Hpa & Hlen).
  by exists tgt, t', ns.
Qed.

(** C3: on a valid input [process_axes] returns the axis names ['out']
    (if has_out), then ['up'] (if up1 or up2 is a label), then ['down']
    (if down1 or down2 is a label), and a tensor whose rank is the length
    of that list, that is (1 if has_out) + (1 if any up label)
    + (1 if any down label). *)
Theorem process_axes_final_axes t (l : list string) (has_out : bool) :
  valid_input t l has_out →
  ∃ t' final_axes,
    process_axes t l has_out = Ok (t', final_axes) ∧
    final_axes =
      (if has_out then ["out"] else []) ++
      (if bool_decide ("up1" ∈ l ∨ "up2" ∈ l) then ["up"] else []) ++
      (if bool_decide ("down1" ∈ l ∨ "down2" ∈ l) then ["down"] else []) ∧
    ndim t' = length final_axes ∧
    ndim t' =
      Nat.b2n has_out + Nat.b2n (bool_decide ("up1" ∈ l ∨ "up2" ∈ l))
      + Nat.b2n (bool_decide ("down1" ∈ l ∨ "down2" ∈ l)).
Proof.
  intros Hv.
  destruct (process_axes_valid _ _ _ Hv)
    as (tgt & t' & ns & _ & _ & _ & _ & _ & Hlen & ->).
  eexists _, _. split; [reflexivity|]. unfold ndim. simpl. rewrite Hlen.
  rewrite !dict_has_make_axis_map. unfold build_final_axes.
  destruct has_out;
    repeat (case_bool_decide; simpl); try (split_and!; reflexivity);
    exfalso; tauto.
Qed.

(** C4: on a valid input the output shape has as many elements as the
    input shape; and the output holds the elements of the input, each
    once: none is created and none is lost. *)
Theorem process_axes_numel t (l : list string) (has_out : bool) :
  valid_input t l has_out →
  ∃ t' final_axes,
    process_axes t l has_out = Ok (t', final_axes) ∧
    numel (shape t') = numel (shape t) ∧
    (wf t → wf t' ∧ data t' ≡ₚ data t).
Proof.
  intros Hv.
  destruct (process_axes_valid _ _ _ Hv)
    as (tgt & t' & ns & _ & _ & Hre & _ & Hnum & _ & ->).
  eexists _, _. split_and!; [done..|]. intros Hwf.
  pose proof (reorder_data _ _ _ Hwf Hre) as Hp. unfold wf. simpl.
  split; [|done]. by rewrite (Permutation_length Hp), Hnum.
Qed.

(** C10: on inputs that satisfy the preconditions [process_axes] returns
    without raising: the target order is a permutation of range(rank),
    the base index of each group present (and the index after it, when
    the group merges two axes) is within the permuted shape, and the new
    shape has as many elements as the permuted tensor. *)
Theorem process_axes_no_raise t (l : list string) (has_out : bool) :
  valid_input t l has_out →
  let m := make_axis_map l in
  let up_idx := out_offset has_out in
  let down_idx :=
    out_offset has_out + Nat.b2n (dict_has m "up1")
    + Nat.b2n (dict_has m "up2") in
  ∃ tgt t' new_shape,
    build_target_order m has_out = Ok tgt ∧
    tgt ≡ₚ seq 0 (ndim t) ∧
    reorder t (shape t) tgt = Ok (t', shape t') ∧
    (dict_has m "up1" || dict_has m "up2" → up_idx < ndim t') ∧
    (dict_has m "up1" && dict_has m "up2" → up_idx + 1 < ndim t') ∧
    (dict_has m "down1" || dict_has m "down2" → down_idx < ndim t') ∧
    (dict_has m "down1" && dict_has m "down2" → down_idx + 1 < ndim t') ∧
    build_new_shape has_out (dict_has m "up1") (dict_has m "up2")
      (dict_has m "down1") (dict_has m "down2") (shape t') = Ok new_shape ∧
    numel new_shape = numel (shape t') ∧
    returns (process_axes t l has_out).
Proof.
  intros Hv m up_idx down_idx.
  destruct (process_axes_valid _ _ _ Hv)
    as (tgt & t' & ns & Htgt & Hp & Hre & Hns & Hnum & _ & Hpa).
  pose proof (reorder_shape _ _ _ Hre) as [Hlen Hnum'].
  rewrite (length_target_order _ _ _ Htgt) in Hlen. fold m in Hlen.
  exists tgt, t', ns. unfold ndim, up_idx, down_idx.
  split_and!; try done.
  - rewrite Hlen. destruct (dict_has m "up1"), (dict_has m "up2"); simpl;
      intros; try done; lia.
  - rewrite Hlen. destruct (dict_has m "up1"), (dict_has m "up2"); simpl;
      intros; try done; lia.
  - rewrite Hlen. destruct (dict_has m "down1"), (dict_has m "down2"); simpl;
      intros; try done; lia.
  - rewrite Hlen. destruct (dict_has m "down1"), (dict_has m "down2"); simpl;
      intros; try done; lia.
  - congruence.
  - by eexists.
Qed.

(** C1: a tensor of shape (2,3,4,5) with labels ['up1','up2','down1'] and
    has_out gives a tensor of shape (2,12,5) with names
    ['out','up','down'], and output[o,i,d] is input[o,i//4,i%4,d] at
    every valid index. *)
Theorem process_axes_merge_up t :
  shape t = [2; 3; 4; 5] → wf t →
  ∃ t', process_axes t ["up1"; "up2"; "down1"] true
          = Ok (t', ["out"; "up"; "down"]) ∧
        shape t' = [2; 12; 5] ∧
        ∀ o i d, o < 2 → i < 12 → d < 5 →
          getitem t' [o; i; d] = getitem t [o; i / 4; i mod 4; d] ∧
          is_Some (getitem t' [o; i; d]).
Proof.
  destruct t as [sh dat]. unfold wf. cbn [shape data]. intros -> Hwf.
  eexists. split; [vm_compute; reflexivity|]. split; [reflexivity|].
  intros o i d Ho Hi Hd.
  assert (i / 4 < 3) as Hq by (apply Nat.Div0.div_lt_upper_bound; lia).
  assert (i mod 4 < 4) as Hr by (apply Nat.mod_upper_bound; lia).
  pose proof (Nat.div_mod i 4 ltac:(lia)) as Hdm.
  generalize dependent (i / 4). generalize dependent (i mod 4).
  intros r Hr q Hq Hdm. unfold getitem. simpl.
  rewrite !bool_decide_eq_true_2 by lia. simpl.
  unfold offset. simpl.
  replace (o * 60 + (q * 20 + (r * 5 + (d * 1 + 0))))
    with (o * 60 + (i * 5 + (d * 1 + 0))) by lia.
  split; [done|]. apply lookup_lt_is_Some. rewrite Hwf. simpl. lia.
Qed.

(** C5: a rank-3 tensor with labels ['up1','down1'] and has_out is
    returned as it is, same values and same shape, with the names
    ['out','up','down']. *)
Theorem process_axes_canonical t :
  ndim t = 3 →
  process_axes t ["up1"; "down1"] true = Ok (t, ["out"; "up"; "down"]).
Proof.
  destruct t as [sh dat]. unfold ndim. simpl. intros Hlen.
  destruct sh as [|a [|b [|c [|? ?]]]]; simplify_eq/=.
  unfold process_axes. rewrite build_target_order_eq.
  replace (make_axis_map ["up1"; "down1"])
    with (<["down1" := 1]> (<["up1" := 0]> (∅ : gmap string nat)))
    by reflexivity.
  vm_compute (omap _ vocabulary). simpl.
  unfold reorder. simpl.
  repeat match goal with
  | |- context [dict_has ?m ?k] =>
      let b := eval vm_compute in (dict_has m k) in
      change (dict_has m k) with b
  end.
  simpl. unfold reshape. simpl. rewrite bool_decide_eq_true_2 by lia.
  reflexivity.
Qed.

(** C6: the variant that always transposes and the variant that skips
    the transposition when the target order is the current order return
    the same result, tensor and axis names, on every array (and raise the
    same exception when they raise). *)
Theorem process_axes_skip_equiv t (l : list string) (has_out : bool) :
  wf t →
  process_axes_always_transpose t l has_out = process_axes t l has_out.
Proof.
  intros Hwf. unfold process_axes_always_transpose, process_axes.
  destruct (build_target_order (make_axis_map l) has_out) as [tgt|e];
    simpl; [|done].
  unfold reorder. case_bool_decide as Hne.
  - by destruct (transpose t tgt).
  - subst tgt. fold (ndim t). by rewrite (transpose_id t Hwf).
Qed.

(** Fewer entries in the target order than axes: [np.transpose] raises
    "axes don't match array", and so does [process_axes]. *)
Lemma process_axes_short_target t (l : list string) (has_out : bool)
    (tgt : list nat) :
  build_target_order (make_axis_map l) has_out = Ok tgt →
  length tgt ≠ ndim t →
  process_axes t l has_out = Raise ValueError_axes_mismatch.
Proof.
  intros Htgt Hlen. apply (process_axes_raise _ _ _ _ _ Htgt).
  unfold reorder. rewrite bool_decide_eq_true_2.
  - unfold transpose. by rewrite bool_decide_eq_true_2.
  - intros ->. by rewrite length_seq in Hlen.
Qed.

End process_axes_claims.

(** Distinct positions that miss one position of the list are fewer than
    the list is long. *)
Lemma length_positions_lt (l : list string) (k : string) :
  k ∈ l → k ∉ vocabulary →
  length (omap (λ k', make_axis_map l !! k') vocabulary) < length l.
Proof.
  intros [j Hj]%list_elem_of_lookup_1 Hk.
  set (ps := omap (λ k', make_axis_map l !! k') vocabulary).
  assert (NoDup (j :: ps)) as Hnd.
  { constructor.
    - intros (k' & Hk' & Hm%make_axis_map_Some)%list_elem_of_omap.
      congruence.
    - apply NoDup_omap_inj; [|unfold vocabulary; compute_done].
      intros x y z Hx%make_axis_map_Some Hy%make_axis_map_Some. congruence. }
  assert (j :: ps ⊆+ seq 0 (length l)) as Hsub.
  { apply NoDup_submseteq; [done|]. intros i Hi. apply elem_of_seq.
    split; [lia|]. simpl. apply elem_of_cons in Hi as [->|Hi].
    - by eapply lookup_lt_Some.
    - apply list_elem_of_omap in Hi as (k' & _ & Hm%make_axis_map_Some).
      by eapply lookup_lt_Some. }
  apply submseteq_length in Hsub. rewrite length_seq in Hsub. simpl in Hsub.
  lia.
Qed.

(** C2, as the code has it: with a label outside the vocabulary and one
    label per axis after the optional out axis, [process_axes] raises the
    ValueError of [np.transpose] (axes don't match array) and returns
    nothing. *)
Theorem process_axes_unknown_label {A} (t : ndarray A) (l : list string)
    (has_out : bool) (k : string) :
  k ∈ l → k ∉ vocabulary →
  length l + out_offset has_out = ndim t →
  process_axes t l has_out = Raise ValueError_axes_mismatch.
Proof.
  intros Hin Hk Hlen.
  apply (process_axes_short_target t l has_out _
           (build_target_order_eq _ _)).
  rewrite length_app, length_fmap.
  pose proof (length_positions_lt l k Hin Hk).
  destruct has_out; simpl in *; lia.
Qed.

(** C2 as stated fails: with the labels ['up1','side1'] on a rank-1
    tensor, [process_axes] returns a result and raises nothing. *)
Lemma process_axes_unknown_label_returns :
  ¬ (∀ (t : ndarray nat) (l : list string) (has_out : bool),
       (∃ k, k ∈ l ∧ k ∉ vocabulary) → raises (process_axes t l has_out)).
Proof.
  intros H.
  destruct (H (NDArray [9] (seq 0 9)) ["up1"; "side1"] false) as [e He].
  - exists "side1". split; compute_done.
  - vm_compute in He. discriminate He.
Qed.

(** * The claims about [TT_State_Compression] *)

Section tt_facts.
Context {scalar float : Type}.
Variable convert : dtype → dtype → scalar → scalar.
Variable round_tt : list (tensor scalar) → float → result (list (tensor scalar)).
Implicit Types state : list (Node scalar).
Implicit Types cores : list (tensor scalar).

Lemma tn_Node_Ok (x : tensor scalar) (nm : string) (names : list string)
    (node : Node scalar) :
  tn_Node x nm names = Ok node → node = MkNode x nm names.
Proof.
  unfold tn_Node. repeat case_bool_decide; congruence.
Qed.

(** The loop appends one node per core, with the metadata of the input
    node at the same index. *)
Lemma attach_metadata_Ok state (i : nat) cores (acc res : list (Node scalar)) :
  attach_metadata state i cores acc = Ok res →
  ∃ new, res = acc ++ new ∧ length new = length cores ∧
    ∀ j out, new !! j = Some out →
      ∃ node core, state !! (i + j) = Some node ∧ cores !! j = Some core ∧
                   out = MkNode core (name node) (axis_names node).
Proof.
  revert i acc. induction cores as [|core cores IH]; intros i acc; simpl.
  - intros [= <-]. exists []. rewrite app_nil_r. split_and!; [done..|].
    intros j out Hj. by rewrite lookup_nil in Hj.
  - unfold list_get. destruct (state !! i) as [node_i|] eqn:Hi; [|done].
    simpl.
    destruct (tn_Node core (name node_i) (axis_names node_i)) as [node|]
      eqn:Hnode; [|done].
    simpl. apply tn_Node_Ok in Hnode as ->.
    intros (new & -> & Hlen & Hnew)%IH.
    eexists (_ :: new). rewrite <- app_assoc. split_and!; [done|simpl; lia|].
    intros [|j] out Hj; simpl in Hj.
    + injection Hj as <-. rewrite Nat.add_0_r. by eexists _, _.
    + destruct (Hnew j out Hj) as (node & c & Hs & Hc & ->).
      exists node, c. by rewrite <- Nat.add_succ_comm.
Qed.

(** The loop returns when every core has an input node at its index whose
    axis names fit it. *)
Lemma attach_metadata_returns state (i : nat) cores (acc : list (Node scalar)) :
  (∀ j core, cores !! j = Some core →
     ∃ node, state !! (i + j) = Some node ∧ NoDup (axis_names node) ∧
             length (axis_names node) = ndim (array_of core)) →
  returns (attach_metadata state i cores acc).
Proof.
  revert i acc. induction cores as [|core cores IH]; intros i acc H; simpl.
  - by eexists.
  - destruct (H 0 core eq_refl) as (node & Hs & Hnd & Hlen).
    rewrite Nat.add_0_r in Hs. unfold list_get. rewrite Hs. simpl.
    unfold tn_Node. rewrite bool_decide_eq_false_2 by (intros Hn; done).
    rewrite bool_decide_eq_false_2 by (intros Hn; done). simpl.
    apply IH. intros j c Hj. rewrite Nat.add_succ_comm. by apply (H (S j)).
Qed.

(** C7: every node of the list that [TT_State_Compression] returns has
    the name and the axis names of the input node at the same index,
    whatever the decomposition routine returns, and the list has one node
    per returned core.  When the routine gives back as many cores as it
    is given, as [round_tt] of tntorch does, the returned list is as long
    as the input chain, so that every input node has its output node; and
    the function does return when the routine does and each returned
    core has the rank of the input node at its index. *)
Theorem TT_State_Compression_metadata state (eps : float) :
  (∀ res, TT_State_Compression convert round_tt state eps = Ok res →
     (∀ i out, res !! i = Some out →
        ∃ node, state !! i = Some node ∧ name out = name node ∧
                axis_names out = axis_names node) ∧
     ∃ cores, round_tt (tensor_list convert state) eps = Ok cores ∧
              length res = length cores) ∧
  ((∀ chain e cores, round_tt chain e = Ok cores →
      length cores = length chain) →
   (∀ res, TT_State_Compression convert round_tt state eps = Ok res →
      length res = length state ∧
      ∀ i node, state !! i = Some node →
        ∃ out, res !! i = Some out ∧ name out = name node ∧
               axis_names out = axis_names node) ∧
   (∀ cores, round_tt (tensor_list convert state) eps = Ok cores →
      Forall2 (λ core node, NoDup (axis_names node) ∧
                 length (axis_names node) = ndim (array_of core))
        cores state →
      returns (TT_State_Compression convert round_tt state eps))).
Proof.
  unfold TT_State_Compression.
  assert (∀ res,
    round_tt (tensor_list convert state) eps
      ≫= (λ cores, attach_metadata state 0 cores []) = Ok res →
    (∀ i out, res !! i = Some out →
       ∃ node, state !! i = Some node ∧ name out = name node ∧
               axis_names out = axis_names node) ∧
    ∃ cores, round_tt (tensor_list convert state) eps = Ok cores ∧
             length res = length cores) as Hmeta.
  { intros res.
    destruct (round_tt (tensor_list convert state) eps) as [cores|];
      [|done].
    simpl. intros (new & -> & Hn & Hnew)%attach_metadata_Ok. simpl.
    split; [|by exists cores].
    intros i out Ho. destruct (Hnew i out Ho) as (node & core & Hs & _ & ->).
    by exists node. }
  split; [exact Hmeta|]. intros Hlen. split.
  - intros res Hres. destruct (Hmeta res Hres) as (Hm & cores & Hr & Hl).
    apply Hlen in Hr. unfold tensor_list in Hr. rewrite length_fmap in Hr.
    split; [congruence|]. intros i node Hi.
    destruct (lookup_lt_is_Some_2 res i) as [out Ho].
    { rewrite Hl, Hr. by eapply lookup_lt_Some. }
    destruct (Hm i out Ho) as (node' & Hs & Hnm & Hax).
    exists out. rewrite Hi in Hs. injection Hs as <-. done.
  - intros cores -> Hfit. simpl. apply attach_metadata_returns.
    intros j core Hj. simpl.
    destruct (Forall2_lookup_l _ _ _ _ _ Hfit Hj) as (node & Hs & Hn).
    by exists node.
Qed.

Lemma tensor_list_complex128 state :
  Forall is_complex128 (tensor_list convert state).
Proof.
  unfold tensor_list. apply Forall_fmap, Forall_forall. by intros node _.
Qed.

End tt_facts.

(** C8: whatever the dtypes of the input tensors, what the decomposition
    routine is handed is the promoted chain: one tensor per input node,
    of dtype complex128, with the shape of the node's tensor and its
    elements converted to complex128.  The routine is called on that
    chain with the given tolerance and on nothing else: two routines
    that agree on that one call give the same result, whatever they do
    on other chains (the input tensors as they were, an empty chain) or
    tolerances; an exception the routine raises on that call is the
    exception of [TT_State_Compression]; and the tensors of the returned
    nodes are the cores the routine returns on that call. *)
Theorem TT_State_Compression_promotes {scalar float : Type}
    (convert : dtype → dtype → scalar → scalar)
    (f g : list (tensor scalar) → float → result (list (tensor scalar)))
    (state : list (Node scalar)) (eps : float) :
  Forall2 (λ node x,
             dtype_of x = complex128 ∧
             shape (array_of x) = shape (array_of (node_tensor node)) ∧
             data (array_of x) =
               convert (dtype_of (node_tensor node)) complex128
                 <$> data (array_of (node_tensor node)))
    state (tensor_list convert state) ∧
  (f (tensor_list convert state) eps = g (tensor_list convert state) eps →
   TT_State_Compression convert f state eps =
     TT_State_Compression convert g state eps) ∧
  (∀ e, f (tensor_list convert state) eps = Raise e →
     TT_State_Compression convert f state eps = Raise e) ∧
  (∀ res, TT_State_Compression convert f state eps = Ok res →
     ∃ cores, f (tensor_list convert state) eps = Ok cores ∧
       Forall2 (λ out core, node_tensor out = core) res cores).
Proof.
  split_and!.
  - unfold tensor_list. apply Forall2_fmap_r, Forall_Forall2_diag.
    apply Forall_forall. by intros node _.
  - intros Hfg. unfold TT_State_Compression. by rewrite Hfg.
  - intros e He. unfold TT_State_Compression. by rewrite He.
  - intros res. unfold TT_State_Compression.
    destruct (f (tensor_list convert state) eps) as [cores|e]; [|done].
    simpl. intros (new & -> & Hlen & Hnew)%attach_metadata_Ok.
    exists cores. split; [done|]. simpl.
    apply Forall2_same_length_lookup_2; [done|].
    intros j out core Ho Hc.
    destruct (Hnew j out Ho) as (node & core' & _ & Hc' & ->).
    simpl. congruence.
Qed.

(** * [process_axes] on the store *)

Section store_facts.
Context {A : Type}.
Implicit Types σ : gmap loc (pyobj A).

Lemma bind_Ok {T U} (m : M A T) (f : T → M A U) σ σ' (x : T) :
  m σ = (Ok x, σ') → (m ≫= f) σ = f x σ'.
Proof. intros H. unfold mbind, M_bind. by rewrite H. Qed.

Lemma bind_Raise {T U} (m : M A T) (f : T → M A U) σ σ' (e : exn) :
  m σ = (Raise e, σ') → (m ≫= f) σ = (Raise e, σ').
Proof. intros H. unfold mbind, M_bind. by rewrite H. Qed.

Lemma alloc_fresh (o : pyobj A) σ :
  ∃ l, alloc o σ = (Ok l, <[l := o]> σ) ∧ σ !! l = None.
Proof.
  exists (fresh (dom σ)). split; [done|].
  apply not_elem_of_dom, is_fresh.
Qed.

Lemma nat_list_append_insert (r : loc) (L : list nat) (x : nat) σ :
  nat_list_append r x (<[r := PyNatList L]> σ)
  = (Ok (), <[r := PyNatList (L ++ [x])]> σ).
Proof.
  unfold nat_list_append. by rewrite lookup_insert_eq, insert_insert_eq.
Qed.

Lemma str_list_append_insert (r : loc) (L : list string) (x : string) σ :
  str_list_append r x (<[r := PyStrList L]> σ)
  = (Ok (), <[r := PyStrList (L ++ [x])]> σ).
Proof.
  unfold str_list_append. by rewrite lookup_insert_eq, insert_insert_eq.
Qed.

(** One guarded append of lines 58-67, on the store. *)
Lemma when_dict_append (am r : loc) (m : gmap string nat) (k : string)
    (off : nat) (L : list nat) σ :
  σ !! am = Some (PyDict m) → σ !! r = None →
  when (dict_has m k)
       (i ← dict_getitem am k; nat_list_append r (i + off))
       (<[r := PyNatList L]> σ)
  = (Ok (),
     <[r := PyNatList (L ++ ((λ i, i + off) <$> option_list (m !! k)))]> σ).
Proof.
  intros Ham Hr. assert (r ≠ am) as Hne by congruence.
  destruct (m !! k) as [i|] eqn:Hk.
  - rewrite (dict_has_Some _ _ _ Hk). simpl.
    erewrite bind_Ok; [apply nat_list_append_insert|].
    unfold dict_getitem. erewrite bind_Ok; [|unfold get_dict;
      by rewrite lookup_insert_ne, Ham].
    unfold lift, dict_get. by rewrite Hk.
  - rewrite (dict_has_None _ _ Hk). simpl. by rewrite app_nil_r.
Qed.

Lemma build_target_order_st_spec (am : loc) (m : gmap string nat)
    (has_out : bool) (tgt : list nat) σ :
  σ !! am = Some (PyDict m) →
  build_target_order m has_out = Ok tgt →
  ∃ r, build_target_order_st am has_out (dict_has m "up1")
         (dict_has m "up2") (dict_has m "down1") (dict_has m "down2") σ
       = (Ok r, <[r := PyNatList tgt]> σ) ∧ σ !! r = None.
Proof.
  intros Ham. rewrite build_target_order_eq. intros [= <-].
  destruct (alloc_fresh (PyNatList []) σ) as (r & Hal & Hr).
  exists r. split; [|done]. unfold build_target_order_st.
  rewrite (bind_Ok _ _ _ _ _ Hal).
  erewrite bind_Ok; cycle 1.
  { instantiate (2 := ()).
    instantiate (1 := <[r := PyNatList (if has_out then [0] else [])]> σ).
    destruct has_out; simpl; [|done]. apply nat_list_append_insert. }
  erewrite bind_Ok; [|by apply when_dict_append].
  erewrite bind_Ok; [|by apply when_dict_append].
  erewrite bind_Ok; [|by apply when_dict_append].
  erewrite bind_Ok; [|by apply when_dict_append].
  unfold mret, M_ret. do 3 f_equal. unfold vocabulary. simpl.
  rewrite <- !app_assoc. f_equal. fold (out_offset has_out).
  destruct (m !! "up1"), (m !! "up2"), (m !! "down1"), (m !! "down2"); done.
Qed.

(** One group of the new shape, on the store. *)
Lemma group_dim_st_spec (has1 has2 : bool) (idx : nat) (sh : list nat)
    (r : loc) (L : list nat) σ :
  group_dim_st has1 has2 idx sh r (<[r := PyNatList L]> σ) =
  match group_dim has1 has2 idx sh L with
  | Ok L' => (Ok (), <[r := PyNatList L']> σ)
  | Raise e => (Raise e, <[r := PyNatList L]> σ)
  end.
Proof.
  unfold group_dim_st, group_dim, tuple_get, when.
  destruct has1, has2; simpl; try done.
  - unfold mbind at 1, M_bind, lift.
    destruct (sh !! idx) as [a|]; simpl; [|done].
    unfold mbind at 1, M_bind.
    destruct (sh !! (idx + 1)) as [b|]; simpl; [|done].
    apply nat_list_append_insert.
  - unfold mbind at 1, M_bind, lift.
    destruct (sh !! idx) as [a|]; simpl; [|done].
    apply nat_list_append_insert.
  - unfold mbind at 1, M_bind, lift.
    destruct (sh !! idx) as [a|]; simpl; [|done].
    apply nat_list_append_insert.
Qed.

Lemma build_new_shape_st_spec
    (has_out has_up1 has_up2 has_down1 has_down2 : bool) (sh : list nat) σ :
  ∃ r L, σ !! r = None ∧
    build_new_shape_st has_out has_up1 has_up2 has_down1 has_down2 sh σ =
    match build_new_shape has_out has_up1 has_up2 has_down1 has_down2 sh with
    | Ok new_shape => (Ok r, <[r := PyNatList new_shape]> σ)
    | Raise e => (Raise e, <[r := PyNatList L]> σ)
    end.
Proof.
  destruct (alloc_fresh (PyNatList []) σ) as (r & Hal & Hr).
  unfold build_new_shape_st, build_new_shape.
  rewrite (bind_Ok _ _ _ _ _ Hal).
  assert (∃ L, when has_out
              (a ← lift (tuple_get sh 0); nat_list_append r a)
              (<[r := PyNatList []]> σ)
            = match (if has_out then a ← tuple_get sh 0; Ok ([] ++ [a])
                     else Ok []) with
              | Ok L' => (Ok (), <[r := PyNatList L']> σ)
              | Raise e => (Raise e, <[r := PyNatList L]> σ)
              end) as [L0 H0].
  { exists []. destruct has_out; simpl; [|done].
    unfold mbind at 1, M_bind, lift, tuple_get.
    destruct (sh !! 0) as [a|]; simpl; [|done].
    apply nat_list_append_insert. }
  destruct (if has_out then _ else _) as [L1|e] in H0 |- *; simpl;
    [|exists r, L0; split; [done|]; by rewrite (bind_Raise _ _ _ _ _ H0)].
  rewrite (bind_Ok _ _ _ _ _ H0).
  pose proof (group_dim_st_spec has_up1 has_up2
                (if has_out then 1 else 0) sh r L1 σ) as H1.
  destruct (group_dim has_up1 has_up2 _ sh L1) as [L2|e]; simpl;
    [|exists r, L1; split; [done|]; by rewrite (bind_Raise _ _ _ _ _ H1)].
  rewrite (bind_Ok _ _ _ _ _ H1).
  pose proof (group_dim_st_spec has_down1 has_down2
                ((if has_out then 1 else 0) + (if has_up1 then 1 else 0)
                 + (if has_up2 then 1 else 0)) sh r L2 σ) as H2.
  destruct (group_dim has_down1 has_down2 _ sh L2) as [L3|e]; simpl;
    [|exists r, L2; split; [done|]; by rewrite (bind_Raise _ _ _ _ _ H2)].
  rewrite (bind_Ok _ _ _ _ _ H2). by exists r, L3.
Qed.

Lemma build_final_axes_st_spec
    (has_out has_up1 has_up2 has_down1 has_down2 : bool) σ :
  ∃ r, σ !! r = None ∧
    build_final_axes_st has_out has_up1 has_up2 has_down1 has_down2 σ =
    (Ok r,
     <[r := PyStrList
              (build_final_axes has_out has_up1 has_up2 has_down1 has_down2)]>
       σ).
Proof.
  destruct (alloc_fresh (PyStrList []) σ) as (r & Hal & Hr).
  exists r. split; [done|]. unfold build_final_axes_st, build_final_axes.
  rewrite (bind_Ok _ _ _ _ _ Hal).
  assert (∀ (c : bool) (x : string) (L : list string),
            when c (str_list_append r x) (<[r := PyStrList L]> σ)
            = (Ok (), <[r := PyStrList (if c then L ++ [x] else L)]> σ))
    as Hstep.
  { intros [] x L; simpl; [apply str_list_append_insert|done]. }
  rewrite (bind_Ok _ _ _ _ _ (Hstep _ _ _)).
  rewrite (bind_Ok _ _ _ _ _ (Hstep _ _ _)).
  by rewrite (bind_Ok _ _ _ _ _ (Hstep _ _ _)).
Qed.

Lemma np_transpose_spec (rt raxes : loc) (t : ndarray A) (axes : list nat) σ :
  σ !! rt = Some (PyArray t) → σ !! raxes = Some (PyNatList axes) →
  ∃ r, σ !! r = None ∧
    np_transpose rt raxes σ =
    match transpose t axes with
    | Ok t' => (Ok r, <[r := PyArray t']> σ)
    | Raise e => (Raise e, σ)
    end.
Proof.
  intros Ht Hax. unfold np_transpose, get_array, get_nat_list.
  unfold mbind at 1, M_bind. rewrite Ht.
  unfold mbind at 1, M_bind. rewrite Hax.
  unfold mbind at 1, M_bind, lift.
  exists (fresh (dom σ)). split; [apply not_elem_of_dom, is_fresh|].
  by destruct (transpose t axes) as [t'|e].
Qed.

Lemma np_reshape_spec (rt rsh : loc) (t : ndarray A) (sh : list nat) σ :
  σ !! rt = Some (PyArray t) → σ !! rsh = Some (PyNatList sh) →
  ∃ r, σ !! r = None ∧
    np_reshape rt rsh σ =
    match reshape t sh with
    | Ok t' => (Ok r, <[r := PyArray t']> σ)
    | Raise e => (Raise e, σ)
    end.
Proof.
  intros Ht Hsh. unfold np_reshape, get_array, get_nat_list.
  unfold mbind at 1, M_bind. rewrite Ht.
  unfold mbind at 1, M_bind. rewrite Hsh.
  unfold mbind at 1, M_bind, lift.
  exists (fresh (dom σ)). split; [apply not_elem_of_dom, is_fresh|].
  by destruct (reshape t sh) as [t'|e].
Qed.

Lemma reorder_st_spec (rt rtgt : loc) (t : ndarray A) (tgt : list nat) σ :
  σ !! rt = Some (PyArray t) → σ !! rtgt = Some (PyNatList tgt) →
  ∃ σ', σ ⊆ σ' ∧
    match reorder t (shape t) tgt with
    | Ok (t', sh') =>
        ∃ rt', reorder_st rt (shape t) rtgt σ = (Ok (rt', sh'), σ')
               ∧ σ' !! rt' = Some (PyArray t')
    | Raise e => reorder_st rt (shape t) rtgt σ = (Raise e, σ')
    end.
Proof.
  intros Ht Htgt. unfold reorder_st, reorder.
  destruct (alloc_fresh (PyNatList (seq 0 (length (shape t)))) σ)
    as (rc & Hal & Hrc).
  set (σ1 := <[rc := PyNatList (seq 0 (length (shape t)))]> σ) in *.
  assert (σ ⊆ σ1) as Hsub by (by apply insert_subseteq).
  assert (σ1 !! rt = Some (PyArray t)) as Ht1
    by (by eapply lookup_weaken).
  assert (σ1 !! rtgt = Some (PyNatList tgt)) as Htgt1
    by (by eapply lookup_weaken).
  assert (σ1 !! rc = Some (PyNatList (seq 0 (length (shape t))))) as Hc1
    by apply lookup_insert_eq.
  erewrite bind_Ok; [|unfold get_array; by rewrite Ht].
  rewrite (bind_Ok _ _ _ _ _ Hal).
  erewrite bind_Ok; [|unfold get_nat_list; by rewrite Htgt1].
  erewrite bind_Ok; [|unfold get_nat_list; by rewrite Hc1].
  case_bool_decide as Hne.
  - destruct (np_transpose_spec rt rtgt t tgt σ1 Ht1 Htgt1) as (r & Hr & Hnp).
    destruct (transpose t tgt) as [t'|e]; simpl.
    + exists (<[r := PyArray t']> σ1). split.
      { etransitivity; [exact Hsub|by apply insert_subseteq]. }
      exists r. split; [|apply lookup_insert_eq].
      rewrite (bind_Ok _ _ _ _ _ Hnp).
      erewrite bind_Ok; [|unfold get_array; by rewrite lookup_insert_eq].
      done.
    + exists σ1. split; [done|]. by rewrite (bind_Raise _ _ _ _ _ Hnp).
  - exists σ1. split; [done|]. by exists rt.
Qed.

End store_facts.

(** An object of the store is still there in a larger store. *)
Ltac kept H := eapply lookup_weaken; [exact H|done].

(** C9: [process_axes] changes no object of the store it is called in:
    the input tensor, with its contents and its shape, and the bond_axes
    list are after the call what they were before; everything it writes
    is an object it has allocated; and what it returns, references to a
    new tensor and a new list of axis names, or the exception it raises,
    is given by the pure function [process_axes] of the tensor, the
    labels and the flag alone. *)
Theorem process_axes_no_side_effect {A} (σ : gmap loc (pyobj A))
    (tensor bond_axes : loc) (has_out : bool)
    (t : ndarray A) (l : list string) :
  σ !! tensor = Some (PyArray t) →
  σ !! bond_axes = Some (PyStrList l) →
  ∃ res σ',
    process_axes_st tensor bond_axes has_out σ = (res, σ') ∧
    σ ⊆ σ' ∧
    σ' !! tensor = Some (PyArray t) ∧
    σ' !! bond_axes = Some (PyStrList l) ∧
    match process_axes t l has_out with
    | Ok (t', final_axes) =>
        ∃ rt rn, res = Ok (rt, rn) ∧ σ !! rt = None ∧ σ !! rn = None ∧
                 σ' !! rt = Some (PyArray t') ∧
                 σ' !! rn = Some (PyStrList final_axes)
    | Raise e => res = Raise e
    end.
Proof.
  intros Ht Hl.
  set (m := make_axis_map l).
  destruct (alloc_fresh (PyDict m) σ) as (am & Hal & Ham).
  set (σ1 := <[am := PyDict m]> σ) in *.
  assert (σ ⊆ σ1) as Hsub1 by (by apply insert_subseteq).
  assert (σ1 !! am = Some (PyDict m)) as Ham1 by apply lookup_insert_eq.
  destruct (build_target_order m has_out) as [tgt|e] eqn:Htgt;
    [|by rewrite build_target_order_eq in Htgt].
  destruct (build_target_order_st_spec am m has_out tgt σ1 Ham1 Htgt)
    as (rtgt & Hbt & Hrtgt).
  set (σ2 := <[rtgt := PyNatList tgt]> σ1) in *.
  assert (σ1 ⊆ σ2) as Hsub2 by (by apply insert_subseteq).
  assert (σ ⊆ σ2) as Hsub02 by (by etransitivity).
  assert (σ2 !! tensor = Some (PyArray t)) as Ht2 by (by eapply lookup_weaken).
  assert (σ2 !! rtgt = Some (PyNatList tgt)) as Htgt2
    by apply lookup_insert_eq.
  destruct (reorder_st_spec tensor rtgt t tgt σ2 Ht2 Htgt2)
    as (σ3 & Hsub3 & Hre).
  assert (σ ⊆ σ3) as Hsub03 by (by etransitivity).
  assert (
    process_axes_st tensor bond_axes has_out σ =
    ('(tensor, shape) ← reorder_st tensor (shape t) rtgt;
     new_shape ← build_new_shape_st has_out (dict_has m "up1")
       (dict_has m "up2") (dict_has m "down1") (dict_has m "down2") shape;
     tensor ← np_reshape tensor new_shape;
     final_axes ← build_final_axes_st has_out (dict_has m "up1")
       (dict_has m "up2") (dict_has m "down1") (dict_has m "down2");
     mret (tensor, final_axes)) σ2) as Hstart.
  { unfold process_axes_st.
    erewrite bind_Ok; [|unfold get_array; by rewrite Ht].
    erewrite bind_Ok; [|unfold get_str_list; by rewrite Hl].
    rewrite (bind_Ok _ _ _ _ _ Hal).
    assert (∀ k, dict_contains am k σ1 = (Ok (dict_has m k), σ1)) as Hdc.
    { intros k. unfold dict_contains.
      erewrite bind_Ok; [|unfold get_dict; by rewrite Ham1]. done. }
    rewrite (bind_Ok _ _ _ _ _ (Hdc _)).
    rewrite (bind_Ok _ _ _ _ _ (Hdc _)).
    rewrite (bind_Ok _ _ _ _ _ (Hdc _)).
    rewrite (bind_Ok _ _ _ _ _ (Hdc _)).
    by rewrite (bind_Ok _ _ _ _ _ Hbt). }
  rewrite Hstart. clear Hstart.
  unfold process_axes. fold m. rewrite Htgt. simpl.
  destruct (reorder t (shape t) tgt) as [[t1 sh1]|e] eqn:Hpure; simpl;
    cycle 1.
  { exists (Raise e), σ3. rewrite (bind_Raise _ _ _ _ _ Hre).
    split_and!; try done; first [kept Ht|kept Hl]. }
  destruct Hre as (rt1 & Hre & Ht3).
  rewrite (bind_Ok _ _ _ _ _ Hre).
  apply reorder_pair in Hpure as ->.
  destruct (build_new_shape_st_spec has_out (dict_has m "up1")
              (dict_has m "up2") (dict_has m "down1") (dict_has m "down2")
              (shape t1) σ3) as (rns & L & Hrns & Hns).
  destruct (build_new_shape has_out _ _ _ _ (shape t1)) as [ns|e]; simpl;
    cycle 1.
  { exists (Raise e), (<[rns := PyNatList L]> σ3).
    rewrite (bind_Raise _ _ _ _ _ Hns).
    assert (σ ⊆ <[rns := PyNatList L]> σ3)
      by (transitivity σ3; [exact Hsub03|by apply insert_subseteq]).
    split_and!; try done; first [kept Ht|kept Hl]. }
  rewrite (bind_Ok _ _ _ _ _ Hns).
  set (σ4 := <[rns := PyNatList ns]> σ3) in *.
  assert (σ3 ⊆ σ4) as Hsub4 by (by apply insert_subseteq).
  assert (σ ⊆ σ4) as Hsub04 by (by etransitivity).
  assert (σ4 !! rt1 = Some (PyArray t1)) as Ht4 by (by eapply lookup_weaken).
  assert (σ4 !! rns = Some (PyNatList ns)) as Hns4 by apply lookup_insert_eq.
  destruct (np_reshape_spec rt1 rns t1 ns σ4 Ht4 Hns4) as (rt2 & Hrt2 & Hrs).
  destruct (reshape t1 ns) as [t2|e]; simpl; cycle 1.
  { exists (Raise e), σ4. rewrite (bind_Raise _ _ _ _ _ Hrs).
    split_and!; try done; first [kept Ht|kept Hl]. }
  rewrite (bind_Ok _ _ _ _ _ Hrs).
  set (σ5 := <[rt2 := PyArray t2]> σ4) in *.
  assert (σ4 ⊆ σ5) as Hsub5 by (by apply insert_subseteq).
  assert (σ ⊆ σ5) as Hsub05 by (by etransitivity).
  destruct (build_final_axes_st_spec has_out (dict_has m "up1")
              (dict_has m "up2") (dict_has m "down1") (dict_has m "down2")
              σ5) as (rn & Hrn & Hfa).
  rewrite (bind_Ok _ _ _ _ _ Hfa).
  set (names := build_final_axes _ _ _ _ _) in *.
  set (σ6 := <[rn := PyStrList names]> σ5) in *.
  assert (σ5 ⊆ σ6) as Hsub6 by (by apply insert_subseteq).
  assert (σ ⊆ σ6) as Hsub06 by (by etransitivity).
  exists (Ok (rt2, rn)), σ6. split; [done|].
  split_and!; try done; try first [kept Ht|kept Hl].
  exists rt2, rn. split_and!; try done.
  - eapply lookup_weaken_None; [exact Hrt2|done].
  - eapply lookup_weaken_None; [exact Hrn|done].
  - eapply lookup_weaken; [apply lookup_insert_eq|done].
  - apply lookup_insert_eq.
Qed.

(** * Further properties of [process_axes] *)

Lemma merge_lt (i j b c : nat) : i < b → j < c → i * c + j < b * c.
Proof. nia. Qed.

Ltac case_labels m :=
  let E1 := fresh "E" in let E2 := fresh "E" in
  let E3 := fresh "E" in let E4 := fresh "E" in
  destruct (m !! "up1") as [?|] eqn:E1;
  destruct (m !! "up2") as [?|] eqn:E2;
  destruct (m !! "down1") as [?|] eqn:E3;
  destruct (m !! "down2") as [?|] eqn:E4;
  rewrite ?(dict_has_Some _ _ _ E1), ?(dict_has_None _ _ E1),
    ?(dict_has_Some _ _ _ E2), ?(dict_has_None _ _ E2),
    ?(dict_has_Some _ _ _ E3), ?(dict_has_None _ _ E3),
    ?(dict_has_Some _ _ _ E4), ?(dict_has_None _ _ E4).

Lemma build_new_shape_closed (m : gmap string nat) (has_out : bool)
    (size : nat → nat) :
  let axis k := (λ i, i + out_offset has_out) <$> m !! k in
  build_new_shape has_out (dict_has m "up1") (dict_has m "up2")
    (dict_has m "down1") (dict_has m "down2")
    (size <$> ((if has_out then [0] else []) ++
               ((λ i, i + out_offset has_out)
                  <$> omap (λ k, m !! k) vocabulary)))
  = Ok ((if has_out then [size 0] else []) ++
        group_dims size (axis "up1") (axis "up2") ++
        group_dims size (axis "down1") (axis "down2")).
Proof.
  unfold vocabulary. simpl.
  case_labels m; destruct has_out; reflexivity.
Qed.

Lemma merged_index_offset (m : gmap string nat) (has_out : bool)
    (size idx : nat → nat) :
  let axis k := (λ i, i + out_offset has_out) <$> m !! k in
  let tgt := (if has_out then [0] else []) ++
             ((λ i, i + out_offset has_out)
                <$> omap (λ k, m !! k) vocabulary) in
  let new_shape := (if has_out then [size 0] else []) ++
                   group_dims size (axis "up1") (axis "up2") ++
                   group_dims size (axis "down1") (axis "down2") in
  let new_idx := (if has_out then [idx 0] else []) ++
                 group_index size idx (axis "up1") (axis "up2") ++
                 group_index size idx (axis "down1") (axis "down2") in
  in_bounds (size <$> tgt) (idx <$> tgt) = true →
  in_bounds new_shape new_idx = true ∧
  offset (strides new_shape) new_idx
  = offset (strides (size <$> tgt)) (idx <$> tgt).
Proof.
  unfold vocabulary. simpl.
  destruct (m !! "up1") as [a|]; destruct (m !! "up2") as [b|];
    destruct (m !! "down1") as [c|]; destruct (m !! "down2") as [d|];
    destruct has_out; simpl;
    rewrite ?andb_true_r, ?andb_true_iff, ?bool_decide_eq_true;
    unfold offset; simpl;
    repeat match goal with
    | |- context [size ?x] => generalize (size x); intro
    | |- context [idx ?x] => generalize (idx x); intro
    end;
    intros; destruct_and?; (split; [repeat split; auto using merge_lt|lia]).
Qed.

Section returning.
Context {A : Type}.
Implicit Types t : ndarray A.

(** What a returning call of [process_axes] has done. *)
Lemma process_axes_Ok_inv t t' (l : list string) (has_out : bool)
    (names : list string) :
  process_axes t l has_out = Ok (t', names) →
  ∃ t1 new_shape,
    reorder t (shape t) (target_order_of l has_out) = Ok (t1, shape t1) ∧
    build_new_shape has_out
      (dict_has (make_axis_map l) "up1") (dict_has (make_axis_map l) "up2")
      (dict_has (make_axis_map l) "down1") (dict_has (make_axis_map l) "down2")
      (shape t1) = Ok new_shape ∧
    numel new_shape = numel (shape t) ∧
    t' = NDArray new_shape (data t1) ∧
    names = build_final_axes has_out
      (dict_has (make_axis_map l) "up1") (dict_has (make_axis_map l) "up2")
      (dict_has (make_axis_map l) "down1") (dict_has (make_axis_map l) "down2") ∧
    length new_shape = length names.
Proof.
  intros Hpa.
  pose proof (build_target_order_eq (make_axis_map l) has_out) as Htgt.
  fold (target_order_of l has_out) in Htgt.
  destruct (reorder t (shape t) (target_order_of l has_out))
    as [[t1 sh1]|e] eqn:Hre.
  - pose proof (reorder_pair _ _ _ _ Hre) as ->.
    destruct (process_axes_after_reorder _ _ _ _ _ Htgt Hre)
      as (ns & Hns & Hnum & Hpa' & Hlen).
    rewrite Hpa' in Hpa. injection Hpa as <- <-. by exists t1, ns.
  - by rewrite (process_axes_raise _ _ _ _ _ Htgt Hre) in Hpa.
Qed.

Lemma reorder_getitem t t1 (tgt idx : list nat) :
  wf t → reorder t (shape t) tgt = Ok (t1, shape t1) →
  in_bounds (shape t) idx = true →
  getitem t1 ((λ a, idx !!! a) <$> tgt) = getitem t idx.
Proof.
  intros Hwf [[_ Htr]|[-> ->]]%reorder_transpose Hb.
  - by eapply transpose_getitem.
  - apply in_bounds_Forall2, Forall2_length in Hb. unfold ndim.
    by rewrite <- Hb, lookup_total_seq_id.
Qed.

(** X1: whenever [process_axes] returns, the shape of the result is the
    size of the out axis (if has_out), then the product of the sizes of
    the up axes present, then the product of the sizes of the down axes
    present, each size read from the input shape at the axis its label
    names. *)
Theorem process_axes_shape t t' (l : list string) (has_out : bool)
    (names : list string) :
  process_axes t l has_out = Ok (t', names) →
  shape t' = expected_shape (shape t) l has_out.
Proof.
  intros (t1 & ns & Hre & Hns & _ & -> & _ & _)%process_axes_Ok_inv.
  apply reorder_inv in Hre as [_ Hsh]. rewrite Hsh in Hns.
  unfold target_order_of in Hns. rewrite build_new_shape_closed in Hns.
  by injection Hns as <-.
Qed.

(** X2: whenever [process_axes] returns on a well-formed array, the
    element of the input at a valid index is the element of the result at
    the merged index: the out index, then up1 * size(up2) + up2 (or the
    one up index present), then down1 * size(down2) + down2 (or the one
    down index present). *)
Theorem process_axes_getitem t t' (l : list string) (has_out : bool)
    (names : list string) (idx : list nat) :
  wf t →
  process_axes t l has_out = Ok (t', names) →
  in_bounds (shape t) idx = true →
  getitem t' (expected_index (shape t) idx l has_out) = getitem t idx ∧
  is_Some (getitem t idx).
Proof.
  intros Hwf (t1 & ns & Hre & Hns & _ & -> & _ & _)%process_axes_Ok_inv Hb.
  split; cycle 1.
  { unfold getitem. rewrite Hb. apply lookup_lt_is_Some. rewrite Hwf.
    by apply offset_in_bounds. }
  rewrite <- (reorder_getitem _ _ _ _ Hwf Hre Hb).
  pose proof (reorder_inv _ _ _ Hre) as [Hp Hsh].
  rewrite Hsh in Hns. unfold target_order_of in Hns.
  rewrite build_new_shape_closed in Hns. injection Hns as <-.
  assert (in_bounds (shape t1) ((λ a, idx !!! a) <$> target_order_of l has_out)
          = true) as Hb1.
  { rewrite Hsh. apply in_bounds_permute; [|done].
    apply Permutation_axes in Hp as (_ & Hlt & _). exact Hlt. }
  unfold getitem at 2. rewrite Hb1.
  rewrite Hsh in Hb1 |- *. unfold target_order_of in Hb1 |- *.
  destruct (merged_index_offset (make_axis_map l) has_out
              (λ a, shape t !!! a) (λ a, idx !!! a) Hb1) as [Hb2 Ho].
  unfold getitem, expected_index, label_axis. simpl.
  simpl in Hb2, Ho. by rewrite Hb2, Ho.
Qed.

End returning.

Lemma NoDup_positions (l : list string) : NoDup (positions l).
Proof.
  apply NoDup_omap_inj; [|unfold vocabulary; compute_done].
  intros x y z Hx%make_axis_map_Some Hy%make_axis_map_Some. congruence.
Qed.

Lemma positions_lt (l : list string) (i : nat) :
  i ∈ positions l → i < length l.
Proof.
  intros (k & _ & Hk%make_axis_map_Some)%list_elem_of_omap.
  by eapply lookup_lt_Some.
Qed.

Lemma length_positions_le (l : list string) :
  length (positions l) ≤ length l.
Proof.
  assert (positions l ⊆+ seq 0 (length l)) as H.
  { apply NoDup_submseteq; [apply NoDup_positions|].
    intros i Hi%positions_lt. apply elem_of_seq. lia. }
  apply submseteq_length in H. by rewrite length_seq in H.
Qed.

(** All positions are looked up only for distinct labels of the
    vocabulary. *)
Lemma positions_full (l : list string) :
  length (positions l) = length l → NoDup l ∧ l ⊆ vocabulary.
Proof.
  intros Hlen.
  assert (positions l ≡ₚ seq 0 (length l)) as Hp.
  { apply submseteq_length_Permutation; [|rewrite length_seq; lia].
    apply NoDup_submseteq; [apply NoDup_positions|].
    intros i Hi%positions_lt. apply elem_of_seq. lia. }
  assert (∀ i k, l !! i = Some k →
            k ∈ vocabulary ∧ make_axis_map l !! k = Some i) as Hall.
  { intros i k Hi. assert (i ∈ positions l) as Hin.
    { rewrite Hp. apply elem_of_seq. apply lookup_lt_Some in Hi. lia. }
    apply list_elem_of_omap in Hin as (k' & Hk' & Hm).
    pose proof (make_axis_map_Some _ _ _ Hm) as Hi'.
    rewrite Hi in Hi'. injection Hi' as ->. done. }
  split.
  - apply NoDup_alt. intros i j k Hi Hj.
    destruct (Hall _ _ Hi) as [_ H1]. destruct (Hall _ _ Hj) as [_ H2].
    congruence.
  - intros k [i Hi]%list_elem_of_lookup_1. by destruct (Hall _ _ Hi).
Qed.

Lemma length_target_order_of (l : list string) (has_out : bool) :
  length (target_order_of l has_out)
  = length (positions l) + out_offset has_out.
Proof.
  unfold target_order_of. rewrite length_app, length_fmap.
  fold (positions l). destruct has_out; simpl; lia.
Qed.

Lemma NoDup_target_order_of (l : list string) (has_out : bool) :
  NoDup (target_order_of l has_out).
Proof.
  unfold target_order_of. fold (positions l). destruct has_out; simpl.
  - constructor.
    + intros (i & Hi & _)%list_elem_of_fmap. lia.
    + apply NoDup_fmap_2; [|apply NoDup_positions]. intros x y; lia.
  - apply NoDup_fmap_2; [|apply NoDup_positions]. intros x y; lia.
Qed.

Lemma check_axes_AxisError (n : nat) (seen axes : list nat) :
  NoDup axes → (∀ a, a ∈ axes → a ∉ seen) → Exists (λ a, n ≤ a) axes →
  check_axes n seen axes = Raise AxisError.
Proof.
  revert seen. induction axes as [|a axes IH]; intros seen Hnd Hseen Hex;
    simpl; [by apply Exists_nil in Hex|].
  case_bool_decide as Hn; [done|].
  rewrite bool_decide_eq_false_2 by (apply Hseen; left).
  apply NoDup_cons in Hnd as [Ha Hnd].
  apply Exists_cons in Hex as [?|Hex]; [lia|].
  apply IH; try done.
  intros b Hb [->|Hin]%elem_of_cons; [done|]. apply (Hseen b); [by right|done].
Qed.

Section errors.
Context {A : Type}.
Implicit Types t : ndarray A.

(** X3: [process_axes] raises nothing but the two errors of
    [np.transpose]: when it raises, the error is "axes don't match array"
    and the target order has not one entry per axis, or it is AxisError
    and the target order has one entry per axis, one of them not below
    the rank.  No KeyError, no IndexError, no repeated axis and no
    reshape error can occur. *)
Theorem process_axes_raises_only t (l : list string) (has_out : bool)
    (e : exn) :
  process_axes t l has_out = Raise e →
  let tgt := target_order_of l has_out in
  e = ValueError_axes_mismatch ∧ length tgt ≠ ndim t ∨
  e = AxisError ∧ length tgt = ndim t ∧ Exists (λ a, ndim t ≤ a) tgt.
Proof.
  intros Hpa tgt. subst tgt.
  pose proof (build_target_order_eq (make_axis_map l) has_out) as Htgt.
  fold (target_order_of l has_out) in Htgt.
  destruct (decide (length (target_order_of l has_out) = ndim t))
    as [Hlen|Hlen].
  - right.
    destruct (decide (Exists (λ a, ndim t ≤ a) (target_order_of l has_out)))
      as [Hex|Hex].
    + split; [|done].
      assert (reorder t (shape t) (target_order_of l has_out)
              = Raise AxisError) as Hre.
      { unfold reorder. rewrite bool_decide_eq_true_2.
        - unfold transpose. rewrite bool_decide_eq_false_2 by (intros ?; done).
          rewrite check_axes_AxisError; try done.
          + apply NoDup_target_order_of.
          + intros a _. apply not_elem_of_nil.
        - intros Heq. rewrite Heq in Hex. apply Exists_exists in Hex
            as (a & Ha%elem_of_seq & Hge). unfold ndim in Hge. lia. }
      rewrite (process_axes_raise _ _ _ _ _ Htgt Hre) in Hpa. congruence.
    + exfalso. apply not_Exists_Forall in Hex; [|intros a; apply _].
      assert (target_order_of l has_out ≡ₚ seq 0 (ndim t)) as Hp.
      { apply axes_Permutation; [done| |apply NoDup_target_order_of].
        eapply Forall_impl; [exact Hex|]. intros a Ha. simpl in Ha. lia. }
      destruct (reorder_Ok t _ Hp) as [t1 Hre].
      destruct (process_axes_after_reorder _ _ _ _ _ Htgt Hre)
        as (ns & _ & _ & Hpa' & _).
      congruence.
  - left. split; [|done].
    rewrite (process_axes_short_target _ _ _ _ Htgt Hlen) in Hpa. congruence.
Qed.

(** X4: with one label per axis after the optional out axis,
    [process_axes] returns exactly when the labels are distinct and from
    the vocabulary; on every other label list of that length, a repeated
    label included, it raises "axes don't match array". *)
Theorem process_axes_returns_iff t (l : list string) (has_out : bool) :
  length l + out_offset has_out = ndim t →
  (returns (process_axes t l has_out) ↔ NoDup l ∧ l ⊆ vocabulary) ∧
  (¬ (NoDup l ∧ l ⊆ vocabulary) →
   process_axes t l has_out = Raise ValueError_axes_mismatch).
Proof.
  intros Hcount.
  pose proof (build_target_order_eq (make_axis_map l) has_out) as Htgt.
  fold (target_order_of l has_out) in Htgt.
  assert (¬ (NoDup l ∧ l ⊆ vocabulary) →
          process_axes t l has_out = Raise ValueError_axes_mismatch) as Hbad.
  { intros Hnv. apply (process_axes_short_target _ _ _ _ Htgt).
    rewrite length_target_order_of. intros Hlen. apply Hnv, positions_full.
    lia. }
  split; [|done]. split.
  - intros [r Hr]. destruct (decide (NoDup l ∧ l ⊆ vocabulary)) as [|Hnv];
      [done|]. rewrite (Hbad Hnv) in Hr. done.
  - intros [Hnd Hsub].
    destruct (process_axes_valid t l has_out) as (? & ? & ? & H); [done|].
    destruct H as (_ & _ & _ & _ & _ & _ & ->). by eexists.
Qed.

(** X5: distinct labels from the vocabulary whose number, plus one for
    the out axis, is not the rank of the tensor make [process_axes] raise
    "axes don't match array". *)
Theorem process_axes_count_mismatch_raises t (l : list string)
    (has_out : bool) :
  NoDup l → l ⊆ vocabulary →
  length l + out_offset has_out ≠ ndim t →
  process_axes t l has_out = Raise ValueError_axes_mismatch.
Proof.
  intros Hnd Hsub Hcount.
  pose proof (build_target_order_eq (make_axis_map l) has_out) as Htgt.
  fold (target_order_of l has_out) in Htgt.
  apply (process_axes_short_target _ _ _ _ Htgt).
  rewrite length_target_order_of. unfold positions.
  by rewrite (positions_Permutation l Hnd Hsub), length_seq.
Qed.

End errors.

(** X6: the dict of line 44 maps a label to the position of its last
    occurrence in bond_axes, and holds no other label. *)
Theorem make_axis_map_last (l : list string) (k : string) (i : nat) :
  make_axis_map l !! k = Some i ↔
  l !! i = Some k ∧ ∀ j, i < j → l !! j ≠ Some k.
Proof.
  assert (∀ l i, make_axis_map l !! k = Some i →
            ∀ j, i < j → l !! j ≠ Some k) as Hlater.
  { clear. intros l. induction l as [|x l IH] using rev_ind; intros i.
    - unfold make_axis_map. simpl. by rewrite lookup_empty.
    - rewrite make_axis_map_snoc, lookup_insert. case_decide as Hx.
      + intros [= <-] j Hj. rewrite lookup_ge_None_2; [done|].
        rewrite length_app. simpl. lia.
      + intros Hm j Hj. destruct (decide (j < length l)) as [Hlt|Hge].
        * rewrite lookup_app_l by done. by eapply IH.
        * destruct (decide (j = length l)) as [->|Hne].
          -- rewrite list_lookup_middle by done. congruence.
          -- rewrite lookup_ge_None_2; [done|]. rewrite length_app.
             simpl. lia. }
  split.
  - intros Hm. split; [by apply make_axis_map_Some|by eapply Hlater].
  - intros [Hi Hno].
    destruct (proj2 (make_axis_map_is_Some l k)) as [i' Hi'].
    { by eapply list_elem_of_lookup_2. }
    pose proof (make_axis_map_Some _ _ _ Hi') as Hl'.
    pose proof (Hlater _ _ Hi') as Hno'.
    destruct (lt_eq_lt_dec i i') as [[Hlt| ->]|Hgt]; [|done|].
    + by destruct (Hno i' Hlt).
    + by destruct (Hno' i Hgt).
Qed.

Section invariants.
Context {A : Type}.
Implicit Types t : ndarray A.

(** X7: whenever [process_axes] returns, on valid input or not, the
    result has as many elements as the input, its rank is the number of
    axis names returned, at most 3, and for a well-formed array its
    elements are those of the input, each once. *)
Theorem process_axes_returning t t' (l : list string) (has_out : bool)
    (names : list string) :
  process_axes t l has_out = Ok (t', names) →
  numel (shape t') = numel (shape t) ∧
  ndim t' = length names ∧ length names ≤ 3 ∧
  (wf t → wf t' ∧ data t' ≡ₚ data t).
Proof.
  intros (t1 & ns & Hre & Hns & Hnum & -> & -> & Hlen)%process_axes_Ok_inv.
  split_and!; [done|done| |].
  - unfold build_final_axes.
    destruct has_out, (dict_has _ "up1"), (dict_has _ "up2"),
      (dict_has _ "down1"), (dict_has _ "down2"); simpl; lia.
  - intros Hwf. pose proof (reorder_data _ _ _ Hwf Hre) as Hp.
    unfold wf. simpl. split; [|done].
    by rewrite (Permutation_length Hp), Hnum.
Qed.

(** X8: with at most one up label and at most one down label, in that
    order, and one label per axis after the optional out axis, the tensor
    is returned as it is, with the names of the groups present. *)
Theorem process_axes_unchanged t (l : list string) (has_out : bool)
    (u d : string) :
  u ∈ ["up1"; "up2"] → d ∈ ["down1"; "down2"] →
  l ∈ [[]; [u]; [d]; [u; d]] →
  length l + out_offset has_out = ndim t →
  process_axes t l has_out =
  Ok (t, (if has_out then ["out"] else []) ++
         (if bool_decide (u ∈ l) then ["up"] else []) ++
         (if bool_decide (d ∈ l) then ["down"] else [])).
Proof.
  intros Hu Hd Hl. destruct t as [sh dat]. unfold ndim. simpl.
  repeat (apply elem_of_cons in Hu as [->|Hu]); [| |by apply elem_of_nil in Hu];
  (repeat (apply elem_of_cons in Hd as [->|Hd]);
     [| |by apply elem_of_nil in Hd]);
  (repeat (apply elem_of_cons in Hl as [->|Hl]);
     [| | | |by apply elem_of_nil in Hl]);
  destruct has_out; simpl; intros Hlen;
  repeat (destruct sh as [|? sh]; simpl in Hlen; try lia);
  unfold process_axes; rewrite build_target_order_eq;
  vm_compute (omap _ vocabulary); simpl; unfold reorder; simpl;
  repeat match goal with
  | |- context [dict_has ?m ?k] =>
      let b := eval vm_compute in (dict_has m k) in
      change (dict_has m k) with b
  end;
  simpl; unfold reshape; simpl; rewrite ?bool_decide_eq_true_2 by lia;
  reflexivity.
Qed.

End invariants.

(** * Further properties of [TT_State_Compression] *)

Section tt_more.
Context {scalar float : Type}.
Variable convert : dtype → dtype → scalar → scalar.
Variable round_tt : list (tensor scalar) → float → result (list (tensor scalar)).
Implicit Types state : list (Node scalar).
Implicit Types cores : list (tensor scalar).

Lemma tn_Node_fits (core : tensor scalar) (node : Node scalar) :
  fits core node →
  tn_Node core (name node) (axis_names node)
  = Ok (MkNode core (name node) (axis_names node)).
Proof.
  intros [Hnd Hlen]. unfold tn_Node.
  rewrite bool_decide_eq_false_2 by (intros Hn; done).
  by rewrite bool_decide_eq_false_2 by (intros Hn; done).
Qed.

Lemma tn_Node_misfit (core : tensor scalar) (node : Node scalar) :
  ¬ fits core node →
  tn_Node core (name node) (axis_names node) = Raise ValueError_axis_names.
Proof.
  intros Hn. unfold tn_Node.
  destruct (decide (NoDup (axis_names node))) as [Hnd|Hnd];
    [|by rewrite bool_decide_eq_true_2].
  rewrite bool_decide_eq_false_2 by (intros H; done).
  destruct (decide (length (axis_names node) = ndim (array_of core)))
    as [Hlen|Hlen]; [by destruct Hn|].
  by rewrite bool_decide_eq_true_2.
Qed.

Lemma fits_dec (core : tensor scalar) (node : Node scalar) :
  fits core node ∨ ¬ fits core node.
Proof.
  unfold fits.
  destruct (decide (NoDup (axis_names node))) as [?|?];
    destruct (decide (length (axis_names node) = ndim (array_of core)));
    tauto.
Qed.

(** The loop, exactly: it returns when there is an input node for every
    core and each core fits its node, and then appends the cores with the
    metadata of the nodes. *)
Lemma attach_metadata_iff state (i : nat) cores (acc res : list (Node scalar)) :
  attach_metadata state i cores acc = Ok res ↔
  length cores ≤ length (drop i state) ∧
  (∀ j core node, cores !! j = Some core → state !! (i + j) = Some node →
     fits core node) ∧
  res = acc ++ with_metadata cores (drop i state).
Proof.
  revert i acc. induction cores as [|core cores IH]; intros i acc; simpl.
  - split.
    + intros [= <-]. split_and!; [lia| |by rewrite app_nil_r].
      intros j c n Hj. by rewrite lookup_nil in Hj.
    + intros (_ & _ & ->). unfold with_metadata. simpl.
      by rewrite app_nil_r.
  - unfold list_get. destruct (state !! i) as [node_i|] eqn:Hi; simpl.
    + rewrite (drop_S _ _ _ Hi). simpl.
      destruct (fits_dec core node_i) as [Hf|Hf].
      * rewrite (tn_Node_fits _ _ Hf). simpl. rewrite IH.
        unfold with_metadata. simpl. rewrite <- app_assoc. simpl.
        split.
        -- intros (Hlen & Hall & ->). split_and!; [lia| |done].
           intros [|j] c n Hc Hn; simpl in Hc.
           ++ rewrite Nat.add_0_r in Hn. congruence.
           ++ apply (Hall j); [done|]. rewrite <- Hn; f_equal; lia.
        -- intros (Hlen & Hall & ->). split_and!; [lia| |done].
           intros j c n Hc Hn. apply (Hall (S j)); [done|].
           rewrite <- Hn; f_equal; lia.
      * rewrite (tn_Node_misfit _ _ Hf). simpl. split; [done|].
        intros (_ & Hall & _). destruct Hf. apply (Hall 0); [done|].
        by rewrite Nat.add_0_r.
    + split; [done|]. intros (Hlen & _). apply lookup_ge_None in Hi.
      rewrite length_drop in Hlen. lia.
Qed.

Lemma attach_metadata_IndexError state (i : nat) cores
    (acc : list (Node scalar)) :
  length (drop i state) < length cores →
  (∀ j core node, cores !! j = Some core → state !! (i + j) = Some node →
     fits core node) →
  attach_metadata state i cores acc = Raise IndexError.
Proof.
  revert i acc. induction cores as [|core cores IH]; intros i acc Hlen Hall;
    simpl in *; [lia|].
  unfold list_get. destruct (state !! i) as [node_i|] eqn:Hi; simpl; [|done].
  rewrite (drop_S _ _ _ Hi) in Hlen. simpl in Hlen.
  rewrite tn_Node_fits; cycle 1.
  { apply (Hall 0); [done|]. by rewrite Nat.add_0_r. }
  simpl. apply IH; [lia|]. intros j c n Hc Hn. apply (Hall (S j)); [done|].
  rewrite <- Hn; f_equal; lia.
Qed.

Lemma attach_metadata_ValueError state (i j : nat) cores
    (acc : list (Node scalar)) (core : tensor scalar) (node : Node scalar) :
  cores !! j = Some core → state !! (i + j) = Some node →
  ¬ fits core node →
  attach_metadata state i cores acc = Raise ValueError_axis_names.
Proof.
  revert i j acc. induction cores as [|c cores IH]; intros i j acc Hc Hn Hf;
    [by rewrite lookup_nil in Hc|].
  simpl. unfold list_get. destruct j as [|j]; simpl in Hc.
  - injection Hc as ->. rewrite Nat.add_0_r in Hn. rewrite Hn. simpl.
    by rewrite tn_Node_misfit.
  - destruct (state !! i) as [node_i|] eqn:Hi; simpl.
    + destruct (fits_dec c node_i) as [Hf'|Hf'].
      * rewrite (tn_Node_fits _ _ Hf'). simpl.
        apply (IH (S i) j); [done| |done]. rewrite <- Hn; f_equal; lia.
      * by rewrite (tn_Node_misfit _ _ Hf').
    + apply lookup_ge_None in Hi. apply lookup_lt_Some in Hn. lia.
Qed.

(** X9: [TT_State_Compression] returns exactly when the routine returns
    cores, no more of them than input nodes, each fitting the axis names
    of the node at its index; the result is then those cores, as they
    are, each with the name and the axis names of its node: one node per
    core, also when the cores are fewer than the input nodes. *)
Theorem TT_State_Compression_exact state (eps : float)
    (res : list (Node scalar)) :
  TT_State_Compression convert round_tt state eps = Ok res ↔
  ∃ cores, round_tt (tensor_list convert state) eps = Ok cores ∧
    length cores ≤ length state ∧
    (∀ j core node, cores !! j = Some core → state !! j = Some node →
       fits core node) ∧
    res = with_metadata cores state.
Proof.
  unfold TT_State_Compression.
  destruct (round_tt (tensor_list convert state) eps) as [cores|e]; simpl.
  - rewrite attach_metadata_iff. rewrite drop_0. simpl. split.
    + intros (? & ? & ?). by exists cores.
    + intros (c & [= <-] & ? & ? & ?). done.
  - split; [done|]. by intros (c & ? & _).
Qed.

(** X10: when the routine returns more cores than there are input
    nodes, each core fitting the node at its index where there is one,
    [TT_State_Compression] raises IndexError and returns no partial
    list. *)
Theorem TT_State_Compression_extra_cores state (eps : float) cores :
  round_tt (tensor_list convert state) eps = Ok cores →
  length state < length cores →
  (∀ j core node, cores !! j = Some core → state !! j = Some node →
     fits core node) →
  TT_State_Compression convert round_tt state eps = Raise IndexError.
Proof.
  intros Hr Hlen Hall. unfold TT_State_Compression. rewrite Hr. simpl.
  apply attach_metadata_IndexError; [by rewrite drop_0|done].
Qed.

(** X11: when a returned core does not fit the node at its index (its
    rank is not the number of the node's axis names, or these repeat),
    [TT_State_Compression] raises the ValueError of [tn.Node]. *)
Theorem TT_State_Compression_misfit state (eps : float) cores (j : nat)
    (core : tensor scalar) (node : Node scalar) :
  round_tt (tensor_list convert state) eps = Ok cores →
  cores !! j = Some core → state !! j = Some node →
  ¬ fits core node →
  TT_State_Compression convert round_tt state eps
  = Raise ValueError_axis_names.
Proof.
  intros Hr Hc Hn Hf. unfold TT_State_Compression. rewrite Hr. simpl.
  by eapply (attach_metadata_ValueError state 0 j).
Qed.

End tt_more.

(** * The theorems at concrete inputs *)

Example transpose_2x3 :
  transpose (NDArray [2; 3] [1; 2; 3; 4; 5; 6]) [1; 0]
  = Ok (NDArray [3; 2] [1; 4; 2; 5; 3; 6]).
Proof. reflexivity. Qed.

Example process_axes_down_up :
  process_axes (NDArray [2; 3] [1; 2; 3; 4; 5; 6]) ["down1"; "up1"] false
  = Ok (NDArray [3; 2] [1; 4; 2; 5; 3; 6], ["up"; "down"]).
Proof. vm_compute. reflexivity. Qed.

Example process_axes_merge_permuted :
  process_axes (NDArray [2; 2; 3] (seq 0 12)) ["up2"; "down1"; "up1"] false
  = Ok (NDArray [6; 2] [0; 3; 6; 9; 1; 4; 7; 10; 2; 5; 8; 11],
        ["up"; "down"]).
Proof. vm_compute. reflexivity. Qed.

Example process_axes_single_labels :
  process_axes (NDArray [6; 7] (seq 0 42)) ["up1"; "down2"] false
  = Ok (NDArray [6; 7] (seq 0 42), ["up"; "down"]).
Proof. vm_compute. reflexivity. Qed.

Example process_axes_repeated_label :
  process_axes (NDArray [2; 3] (seq 0 6)) ["up1"; "up1"] false
  = Raise ValueError_axes_mismatch.
Proof. vm_compute. reflexivity. Qed.

Example process_axes_count_mismatch :
  process_axes (NDArray [4] (seq 0 4)) ["side1"; "up1"] false
  = Raise AxisError.
Proof. vm_compute. reflexivity. Qed.

Lemma process_axes_merge_up_witness :
  ∃ t', process_axes (NDArray [2; 3; 4; 5] (seq 0 120))
          ["up1"; "up2"; "down1"] true
          = Ok (t', ["out"; "up"; "down"]) ∧
        shape t' = [2; 12; 5] ∧
        ∀ o i d, o < 2 → i < 12 → d < 5 →
          getitem t' [o; i; d]
          = getitem (NDArray [2; 3; 4; 5] (seq 0 120))
              [o; i / 4; i mod 4; d] ∧
          is_Some (getitem t' [o; i; d]).
Proof. apply process_axes_merge_up; reflexivity. Defined.

Lemma process_axes_unknown_label_witness :
  process_axes (NDArray [9; 2] (seq 0 18)) ["up1"; "side1"] false
  = Raise ValueError_axes_mismatch.
Proof.
  apply (process_axes_unknown_label _ _ _ "side1");
    [compute_done | compute_done | reflexivity].
Defined.

Lemma process_axes_final_axes_witness :
  ∃ t' final_axes,
    process_axes (NDArray [2; 3; 4; 5] (seq 0 120))
      ["down1"; "up2"; "up1"] true = Ok (t', final_axes) ∧
    final_axes =
      (if true then ["out"] else []) ++
      (if bool_decide ("up1" ∈ ["down1"; "up2"; "up1"]
                       ∨ "up2" ∈ ["down1"; "up2"; "up1"])
       then ["up"] else []) ++
      (if bool_decide ("down1" ∈ ["down1"; "up2"; "up1"]
                       ∨ "down2" ∈ ["down1"; "up2"; "up1"])
       then ["down"] else []) ∧
    ndim t' = length final_axes ∧
    ndim t' =
      Nat.b2n true
      + Nat.b2n (bool_decide ("up1" ∈ ["down1"; "up2"; "up1"]
                              ∨ "up2" ∈ ["down1"; "up2"; "up1"]))
      + Nat.b2n (bool_decide ("down1" ∈ ["down1"; "up2"; "up1"]
                              ∨ "down2" ∈ ["down1"; "up2"; "up1"])).
Proof.
  apply process_axes_final_axes.
  split_and!; [compute_done | compute_done | reflexivity].
Defined.

Lemma process_axes_numel_witness :
  ∃ t' final_axes,
    process_axes (NDArray [3; 4] (seq 0 12)) ["down2"; "up1"] false
      = Ok (t', final_axes) ∧
    numel (shape t') = numel [3; 4] ∧
    (wf (NDArray [3; 4] (seq 0 12)) → wf t' ∧ data t' ≡ₚ seq 0 12).
Proof.
  apply (process_axes_numel (NDArray [3; 4] (seq 0 12))).
  split_and!; [compute_done | compute_done | reflexivity].
Defined.

Lemma process_axes_no_raise_witness :
  let t := NDArray [2; 3; 4; 5; 6] (seq 0 720) in
  let l := ["down2"; "up2"; "down1"; "up1"] in
  let m := make_axis_map l in
  let up_idx := out_offset true in
  let down_idx :=
    out_offset true + Nat.b2n (dict_has m "up1")
    + Nat.b2n (dict_has m "up2") in
  ∃ tgt t' new_shape,
    build_target_order m true = Ok tgt ∧
    tgt ≡ₚ seq 0 (ndim t) ∧
    reorder t (shape t) tgt = Ok (t', shape t') ∧
    (dict_has m "up1" || dict_has m "up2" → up_idx < ndim t') ∧
    (dict_has m "up1" && dict_has m "up2" → up_idx + 1 < ndim t') ∧
    (dict_has m "down1" || dict_has m "down2" → down_idx < ndim t') ∧
    (dict_has m "down1" && dict_has m "down2" → down_idx + 1 < ndim t') ∧
    build_new_shape true (dict_has m "up1") (dict_has m "up2")
      (dict_has m "down1") (dict_has m "down2") (shape t') = Ok new_shape ∧
    numel new_shape = numel (shape t') ∧
    returns (process_axes t l true).
Proof.
  apply (process_axes_no_raise (NDArray [2; 3; 4; 5; 6] (seq 0 720))).
  split_and!; [compute_done | compute_done | reflexivity].
Defined.

Lemma process_axes_canonical_witness :
  process_axes (NDArray [2; 3; 4] (seq 0 24)) ["up1"; "down1"] true
  = Ok (NDArray [2; 3; 4] (seq 0 24), ["out"; "up"; "down"]).
Proof. apply process_axes_canonical. reflexivity. Defined.

Lemma process_axes_skip_equiv_witness :
  process_axes_always_transpose (NDArray [2; 3] (seq 0 6)) ["up1"; "down1"]
    false
  = process_axes (NDArray [2; 3] (seq 0 6)) ["up1"; "down1"] false.
Proof. apply process_axes_skip_equiv. reflexivity. Defined.

Lemma TT_State_Compression_metadata_witness :
  let convert := λ (_ _ : dtype) (x : nat), x in
  let round_tt := λ (chain : list (tensor nat)) (_ : nat), Ok chain in
  let state :=
    [MkNode (Tensor float64 (NDArray [1; 2; 2] [1; 0; 0; 1])) "q0"
       ["left"; "out"; "right"];
     MkNode (Tensor float64 (NDArray [2; 2; 1] [1; 0; 0; 1])) "q1"
       ["left"; "out"; "right"]] in
  (∀ res, TT_State_Compression convert round_tt state 0 = Ok res →
     length res = length state ∧
     ∀ i node, state !! i = Some node →
       ∃ out, res !! i = Some out ∧ name out = name node ∧
              axis_names out = axis_names node) ∧
  (∀ cores, round_tt (tensor_list convert state) 0 = Ok cores →
     Forall2 (λ core node, NoDup (axis_names node) ∧
                length (axis_names node) = ndim (array_of core))
       cores state →
     returns (TT_State_Compression convert round_tt state 0)).
Proof.
  intros convert round_tt state.
  apply (TT_State_Compression_metadata convert round_tt state 0).
  intros chain e cores H. injection H as <-. reflexivity.
Defined.

Lemma TT_State_Compression_promotes_witness :
  let convert := λ (_ _ : dtype) (x : nat), x in
  let f := λ (chain : list (tensor nat)) (_ : nat), Ok chain in
  let g := λ (chain : list (tensor nat)) (_ : nat),
    if forallb (λ x, bool_decide (dtype_of x = complex128)) chain
    then Ok chain else Raise DecompositionFailure in
  let state :=
    [MkNode (Tensor int64 (NDArray [1; 2; 1] [1; 0])) "q0"
       ["left"; "out"; "right"]] in
  g (node_tensor <$> state) 0 = Raise DecompositionFailure ∧
  TT_State_Compression convert f state 0 =
    TT_State_Compression convert g state 0.
Proof.
  intros convert f g state. split; [reflexivity|].
  destruct (TT_State_Compression_promotes convert f g state 0)
    as (_ & Hcall & _).
  apply Hcall. reflexivity.
Defined.

Lemma process_axes_no_side_effect_witness :
  let σ : gmap loc (pyobj nat) :=
    <[2%positive := PyStrList ["down1"; "up1"]]>
      (<[1%positive := PyArray (NDArray [2; 3] (seq 0 6))]> ∅) in
  ∃ res σ',
    process_axes_st 1%positive 2%positive false σ = (res, σ') ∧
    σ ⊆ σ' ∧
    σ' !! 1%positive = Some (PyArray (NDArray [2; 3] (seq 0 6))) ∧
    σ' !! 2%positive = Some (PyStrList ["down1"; "up1"]) ∧
    match process_axes (NDArray [2; 3] (seq 0 6)) ["down1"; "up1"] false with
    | Ok (t', final_axes) =>
        ∃ rt rn, res = Ok (rt, rn) ∧ σ !! rt = None ∧ σ !! rn = None ∧
                 σ' !! rt = Some (PyArray t') ∧
                 σ' !! rn = Some (PyStrList final_axes)
    | Raise e => res = Raise e
    end.
Proof.
  intros σ. apply process_axes_no_side_effect; reflexivity.
Defined.

(** * The further properties at concrete inputs *)

Lemma process_axes_shape_witness :
  shape (NDArray [6; 2] [0; 3; 6; 9; 1; 4; 7; 10; 2; 5; 8; 11])
  = expected_shape [2; 2; 3] ["up2"; "down1"; "up1"] false.
Proof.
  apply (process_axes_shape (NDArray [2; 2; 3] (seq 0 12)) _ _ _
           ["up"; "down"]).
  vm_compute. reflexivity.
Defined.

Lemma process_axes_getitem_witness :
  getitem (NDArray [6; 2] [0; 3; 6; 9; 1; 4; 7; 10; 2; 5; 8; 11])
    (expected_index [2; 2; 3] [1; 0; 2] ["up2"; "down1"; "up1"] false)
  = getitem (NDArray [2; 2; 3] (seq 0 12)) [1; 0; 2] ∧
  is_Some (getitem (NDArray [2; 2; 3] (seq 0 12)) [1; 0; 2]).
Proof.
  apply (process_axes_getitem (NDArray [2; 2; 3] (seq 0 12)) _ _ _
           ["up"; "down"]).
  - reflexivity.
  - vm_compute. reflexivity.
  - reflexivity.
Defined.

Lemma process_axes_raises_only_witness :
  let tgt := target_order_of ["side1"; "up1"] false in
  AxisError = ValueError_axes_mismatch ∧
    length tgt ≠ ndim (NDArray [4] (seq 0 4)) ∨
  AxisError = AxisError ∧ length tgt = ndim (NDArray [4] (seq 0 4)) ∧
    Exists (λ a, ndim (NDArray [4] (seq 0 4)) ≤ a) tgt.
Proof.
  apply (process_axes_raises_only (NDArray [4] (seq 0 4))
           ["side1"; "up1"] false AxisError).
  vm_compute. reflexivity.
Defined.

Lemma process_axes_returns_iff_witness :
  (returns (process_axes (NDArray [2; 3] (seq 0 6)) ["up1"; "up1"] false)
   ↔ NoDup ["up1"; "up1"] ∧ ["up1"; "up1"] ⊆ vocabulary) ∧
  (¬ (NoDup ["up1"; "up1"] ∧ ["up1"; "up1"] ⊆ vocabulary) →
   process_axes (NDArray [2; 3] (seq 0 6)) ["up1"; "up1"] false
   = Raise ValueError_axes_mismatch).
Proof. apply process_axes_returns_iff. reflexivity. Defined.

Lemma process_axes_count_mismatch_raises_witness :
  process_axes (NDArray [2; 3; 4] (seq 0 24)) ["up1"] false
  = Raise ValueError_axes_mismatch.
Proof.
  apply process_axes_count_mismatch_raises;
    [compute_done | compute_done | unfold ndim; simpl; lia].
Defined.

Lemma process_axes_returning_witness :
  let t := NDArray [9] (seq 0 9) in
  numel (shape t) = numel (shape t) ∧
  ndim t = length ["up"] ∧ length ["up"] ≤ 3 ∧
  (wf t → wf t ∧ data t ≡ₚ data t).
Proof.
  intros t.
  apply (process_axes_returning t t ["up1"; "side1"] false ["up"]).
  vm_compute. reflexivity.
Defined.

Lemma process_axes_unchanged_witness :
  process_axes (NDArray [6; 7] (seq 0 42)) ["up1"; "down2"] false =
  Ok (NDArray [6; 7] (seq 0 42),
      (if false then ["out"] else []) ++
      (if bool_decide ("up1" ∈ ["up1"; "down2"]) then ["up"] else []) ++
      (if bool_decide ("down2" ∈ ["up1"; "down2"]) then ["down"] else [])).
Proof.
  apply process_axes_unchanged;
    [compute_done | compute_done | compute_done | reflexivity].
Defined.

Lemma TT_State_Compression_extra_cores_witness :
  let convert := λ (_ _ : dtype) (x : nat), x in
  let round_tt := λ (chain : list (tensor nat)) (_ : nat),
    Ok (chain ++ chain) in
  TT_State_Compression convert round_tt
    [MkNode (Tensor float64 (NDArray [1; 2; 1] [1; 0])) "q0"
       ["left"; "out"; "right"]] 0
  = Raise IndexError.
Proof.
  intros convert round_tt.
  eapply (TT_State_Compression_extra_cores convert round_tt).
  - reflexivity.
  - simpl. lia.
  - intros [|[|j]] core node Hc Hn; simpl in *; [|done..].
    injection Hc as <-. injection Hn as <-.
    split; [compute_done|reflexivity].
Defined.

Lemma TT_State_Compression_misfit_witness :
  let convert := λ (_ _ : dtype) (x : nat), x in
  let round_tt := λ (chain : list (tensor nat)) (_ : nat), Ok chain in
  TT_State_Compression convert round_tt
    [MkNode (Tensor float64 (NDArray [2; 2] [1; 0; 0; 1])) "q0"
       ["left"; "out"; "right"]] 0
  = Raise ValueError_axis_names.
Proof.
  intros convert round_tt.
  eapply (TT_State_Compression_misfit convert round_tt _ _ _ 0).
  - reflexivity.
  - reflexivity.
  - reflexivity.
  - intros [_ Hlen]. simpl in Hlen. discriminate Hlen.
Defined.
